(** * HDB resale dashboard: loading, cleaning and filtering pipeline

    A shallow embedding of [app.py] (functions [load_all_data],
    [clean_data] and the filtering part of [run_dashboard]) together with
    the properties its specification states about them.

    Modelling conventions.
    - A pandas [DataFrame] is its list of column labels together with its
      rows in positional order; a row maps column labels to cells.  Index
      labels and dtypes are not modelled: cells are compared by value.
    - A cell is a string, a number, a timestamp or the missing value
      ([None], [NaN] and [NaT] are one value, [CNA]).  Numbers are exact
      rationals; the rounding of binary floating point is not modelled.
    - A Python exception is the [Raise] outcome of the [result] monad.
    - Element conversions performed inside pandas ([pd.to_numeric],
      [pd.to_datetime]) on cells that are not yet of the target type are
      parameters of the development; what the program does with their
      answers is modelled in full. *)

From Stdlib Require Import QArith Ascii String.
From stdpp Require Import gmap strings list sorting.

Open Scope string_scope.
Set Warnings "-register-all".

(** ** Exceptions and the result monad *)

Inductive exn :=
| KeyError (labels : list string)   (* a column label or dict key is absent *)
| TypeError (msg : string)
| ValueError (msg : string)
| DateParseError                    (* pd.to_datetime met an unparseable element *)
| Unsupported (what : string).      (* library behaviour outside this model *)

Inductive result (A : Type) :=
| Ok (a : A)
| Raise (e : exn).
Arguments Ok {A} a.
Arguments Raise {A} e.

#[global] Instance result_ret : MRet result := λ A a, Ok a.
#[global] Instance result_bind : MBind result :=
  λ A B f m, match m with Ok a => f a | Raise e => Raise e end.

Fixpoint traverse {A B} (f : A → result B) (l : list A) : result (list B) :=
  match l with
  | [] => Ok []
  | a :: l' => b ← f a; bs ← traverse f l'; Ok (b :: bs)
  end.

(** ** Cells, rows and frames *)

Record Timestamp := mkTimestamp { ts_year : Z; ts_month : Z; ts_day : Z }.

Inductive cell :=
| CStr (s : string)
| CNum (q : Q)
| CDate (t : Timestamp)
| CNA.

Record DataFrame := mkDataFrame {
  columns : list string;
  rows : list (gmap string cell)
}.

Definition notna (c : cell) : bool :=
  match c with CNA => false | _ => true end.

(** [row[c]]; a label the row does not carry reads as missing, which is how
    the [DataFrame] constructor fills records that lack a key. *)
Definition get (c : string) (r : gmap string cell) : cell :=
  default CNA (r !! c).

(** [c in df.columns] *)
Definition has_col (c : string) (df : DataFrame) : bool :=
  bool_decide (c ∈ columns df).

(** The values of [df[c]] in row order (the label is known to exist). *)
Definition column (c : string) (df : DataFrame) : list cell :=
  get c <$> rows df.

(** [df[c]]: raises [KeyError] when the label is absent. *)
Definition getitem (c : string) (df : DataFrame) : result (list cell) :=
  if has_col c df then Ok (column c df) else Raise (KeyError [c]).

(** [df[c] = s] for a series [s] over the same index: the column is
    overwritten in place, or appended as the last column when new. *)
Definition set_column (c : string) (s : list cell) (df : DataFrame) : DataFrame :=
  {| columns := if has_col c df then columns df else columns df ++ [c];
     rows := zip_with (λ r v, <[c := v]> r) (rows df) s |}.

(** [df.empty]: some axis has length zero. *)
Definition empty (df : DataFrame) : bool :=
  match rows df, columns df with
  | [], _ | _, [] => true
  | _, _ => false
  end.

(** [df.head(n)] for a non-negative [n]. *)
Definition head (n : nat) (df : DataFrame) : DataFrame :=
  {| columns := columns df; rows := take n (rows df) |}.

(** [df[mask]] with the mask computed row by row. *)
Definition select_rows (keep : gmap string cell → bool) (df : DataFrame) : DataFrame :=
  {| columns := columns df; rows := List.filter keep (rows df) |}.

(** [df.dropna(subset=subset)]: every label of [subset] must be a column;
    a row is dropped when any of those cells is missing. *)
Definition dropna (subset : list string) (df : DataFrame) : result DataFrame :=
  match List.filter (λ c, negb (has_col c df)) subset with
  | [] => Ok (select_rows (λ r, forallb (λ c, notna (get c r)) subset) df)
  | absent => Raise (KeyError absent)
  end.

Section Cleaner.

(** [pd.to_numeric(_, errors='coerce')] on an element that is neither a
    number nor missing: [Some q] when pandas reads it as the number [q],
    [None] when it cannot. *)
Variable numeric_of_object : cell → option Q.

(** [pd.to_datetime] on an element that is neither a timestamp nor
    missing: [None] when pandas cannot parse it. *)
Variable datetime_of_object : cell → option Timestamp.

Definition to_numeric_cell (c : cell) : cell :=
  match c with
  | CNum q => CNum q
  | CNA => CNA
  | _ => match numeric_of_object c with
         | Some q => CNum q
         | None => CNA
         end
  end.

(** [pd.to_numeric(s, errors='coerce')]: never raises. *)
Definition to_numeric (s : list cell) : list cell := to_numeric_cell <$> s.

Definition to_datetime_cell (c : cell) : result cell :=
  match c with
  | CDate t => Ok (CDate t)
  | CNA => Ok CNA
  | _ => match datetime_of_object c with
         | Some t => Ok (CDate t)
         | None => Raise DateParseError
         end
  end.

(** [pd.to_datetime(s)] with the default [errors='raise']. *)
Definition to_datetime (s : list cell) : result (list cell) :=
  traverse to_datetime_cell s.

(** [s.dt.year] on a datetime series ([NaT] gives a missing year). *)
Definition dt_year_cell (c : cell) : cell :=
  match c with
  | CDate t => CNum (inject_Z (ts_year t))
  | _ => CNA
  end.

Definition dt_year (s : list cell) : list cell := dt_year_cell <$> s.

Definition cols_to_numeric : list string := ["resale_price"; "floor_area_sqm"].

(** One iteration of the type-casting loop of [clean_data]. *)
Definition cast_column (df_clean : DataFrame) (col : string) : DataFrame :=
  if has_col col df_clean
  then set_column col (to_numeric (column col df_clean)) df_clean
  else df_clean.

(** The year-extraction block of [clean_data]. *)
Definition extract_year (df_clean : DataFrame) : result DataFrame :=
  if has_col "month" df_clean then
    month ← to_datetime (column "month" df_clean);
    let df_clean := set_column "month" month df_clean in
    Ok (set_column "year" (dt_year (column "month" df_clean)) df_clean)
  else Ok df_clean.

Definition clean_data (df : option DataFrame) : result (option DataFrame) :=
  match df with
  | None => Ok None
  | Some df =>
      let df_clean := df in
      let df_clean := fold_left cast_column cols_to_numeric df_clean in
      df_clean ← extract_year df_clean;
      df_clean ← dropna ["resale_price"] df_clean;
      Ok (Some df_clean)
  end.

End Cleaner.

(** ** The fetcher: [load_all_data] *)

Inductive json :=
| JNull
| JBool (b : bool)
| JNum (q : Q)
| JStr (s : string)
| JArr (items : list json)
| JObj (members : list (string * json)).

(** What [requests.get] delivers: either a [RequestException] raised by the
    transport (with its text), or a response with a status code and a body,
    which [response.json()] decodes ([None]: the body is not JSON). *)
Inductive http_exchange :=
| RequestFailed (text : string)
| Response (status : Z) (body : option json).

(** [response.raise_for_status()] raises [HTTPError] for 4xx and 5xx. *)
Definition is_error_status (status : Z) : bool :=
  (400 <=? status)%Z && (status <? 600)%Z.

(** Python's [obj[key]] with a string key on a decoded JSON value; a
    repeated member name keeps its last value, as [dict] does. *)
Definition subscript (key : string) (obj : json) : result json :=
  match obj with
  | JObj members =>
      match list_find (λ kv, kv.1 = key) (reverse members) with
      | Some (_, (_, v)) => Ok v
      | None => Raise (KeyError [key])
      end
  | JArr _ => Raise (TypeError "list indices must be integers or slices, not str")
  | JStr _ => Raise (TypeError "string indices must be integers, not 'str'")
  | _ => Raise (TypeError "object is not subscriptable")
  end.

Definition scalar_cell (j : json) : option cell :=
  match j with
  | JNull => Some CNA
  | JNum q => Some (CNum q)
  | JStr s => Some (CStr s)
  | _ => None
  end.

(** A record of the API: a JSON object whose members are strings, numbers
    or null. *)
Definition record_of (j : json) : option (list (string * cell)) :=
  match j with
  | JObj members => mapM (λ kv, c ← scalar_cell kv.2; Some (kv.1, c)) members
  | _ => None
  end.

(** Column labels of a list of records: the union of the keys in the order
    in which they are first seen. *)
Definition first_seen (labels : list string) : list string :=
  reverse (remove_dups (reverse labels)).

(** [pd.DataFrame(records)] for a list of records: one row per record, in
    order; a key a record lacks is filled with the missing value. *)
Definition DataFrame_of_records (recs : list (list (string * cell))) : DataFrame :=
  let cols := first_seen (concat (map (map fst) recs)) in
  {| columns := cols;
     rows := map (λ rec,
               let d : gmap string cell := list_to_map (reverse rec) in
               list_to_map ((λ c, (c, get c d)) <$> cols)) recs |}.

Section Fetcher.

(** [pd.DataFrame(data)] for a payload that is not a list of records as
    above (nested values, scalars, objects, ...). *)
Variable DataFrame_irregular : json → result DataFrame.

Definition DataFrame_new (data : json) : result DataFrame :=
  match data with
  | JArr items =>
      match mapM record_of items with
      | Some recs => Ok (DataFrame_of_records recs)
      | None => DataFrame_irregular data
      end
  | _ => DataFrame_irregular data
  end.

(** [load_all_data]: the pair of the messages shown with [st.error] and
    the returned value ([None] for Python's [None]).  Only
    [requests.exceptions.RequestException] is caught: the transport's
    errors, [HTTPError] from [raise_for_status] and the decoding error of
    [response.json()]; any other exception propagates. *)
Definition load_all_data (x : http_exchange) : result (list string * option DataFrame) :=
  match x with
  | RequestFailed text => Ok (["Error fetching data: " ++ text], None)
  | Response status body =>
      if is_error_status status
      then Ok (["Error fetching data: HTTPError"], None)
      else
        match body with
        | None => Ok (["Error fetching data: JSONDecodeError"], None)
        | Some data_packet =>
            result ← subscript "result" data_packet;
            records ← subscript "records" result;
            df ← DataFrame_new records;
            Ok ([], Some df)
        end
  end.

End Fetcher.

(** ** The filter pipeline of [run_dashboard] *)

#[global] Instance Timestamp_eq_dec : EqDecision Timestamp.
Proof. solve_decision. Defined.

(** Equality of cell values, as [isin] and [unique] see it. *)
Definition cell_eqb (a b : cell) : bool :=
  match a, b with
  | CStr s, CStr t => String.eqb s t
  | CNum p, CNum q => Qeq_bool p q
  | CDate t, CDate u => bool_decide (t = u)
  | CNA, CNA => true
  | _, _ => false
  end.

(** [value in values], element of [s.isin(values)]. *)
Definition isin (values : list cell) (c : cell) : bool :=
  existsb (cell_eqb c) values.

(** [s.unique()]: the distinct values in order of first appearance. *)
Fixpoint unique (s : list cell) : list cell :=
  match s with
  | [] => []
  | c :: s' => c :: List.filter (λ d, negb (cell_eqb c d)) (unique s')
  end.

Fixpoint insert_sorted (s : string) (l : list string) : list string :=
  match l with
  | [] => [s]
  | t :: l' => if String.leb s t then s :: l else t :: insert_sorted s l'
  end.

Definition sort_strings (l : list string) : list string :=
  foldr insert_sorted [] l.

Definition as_str (c : cell) : option string :=
  match c with CStr s => Some s | _ => None end.

(** [sorted(values)]: strings sort; a string next to a non-string raises
    [TypeError]; the order Python gives to other mixtures is not modelled. *)
Definition sorted (values : list cell) : result (list cell) :=
  match values with
  | [] | [_] => Ok values
  | _ =>
      if forallb (λ c, bool_decide (is_Some (as_str c))) values
      then Ok (CStr <$> sort_strings (omap as_str values))
      else if existsb (λ c, bool_decide (is_Some (as_str c))) values
      then Raise (TypeError "'<' not supported between instances of 'str' and 'float'")
      else Raise (Unsupported "sorted() over non-string towns")
  end.

(** The non-missing numbers of a series, for its numeric reductions. *)
Fixpoint numeric_values (s : list cell) : result (list Q) :=
  match s with
  | [] => Ok []
  | CNum q :: s' => qs ← numeric_values s'; Ok (q :: qs)
  | CNA :: s' => numeric_values s'
  | _ :: _ => Raise (Unsupported "reduction over a non-numeric series")
  end.

Definition Qmin2 (a b : Q) : Q := if Qle_bool a b then a else b.
Definition Qmax2 (a b : Q) : Q := if Qle_bool a b then b else a.

(** [s.min()] and [s.max()]: [None] is the [NaN] of an empty reduction. *)
Definition series_min (s : list cell) : result (option Q) :=
  qs ← numeric_values s;
  Ok (match qs with [] => None | q :: qs' => Some (fold_left Qmin2 qs' q) end).

Definition series_max (s : list cell) : result (option Q) :=
  qs ← numeric_values s;
  Ok (match qs with [] => None | q :: qs' => Some (fold_left Qmax2 qs' q) end).

(** [s.mean()], skipping missing values. *)
Definition series_mean (s : list cell) : result (option Q) :=
  qs ← numeric_values s;
  Ok (match qs with
      | [] => None
      | _ => Some (Qred (fold_left Qplus qs 0%Q / inject_Z (Z.of_nat (length qs))))
      end).

(** [int(x)] on a float: truncation towards zero; [NaN] raises. *)
Definition int (x : option Q) : result Z :=
  match x with
  | Some q => Ok (Z.quot (Qnum q) (Zpos (Qden q)))
  | None => Raise (ValueError "cannot convert float NaN to integer")
  end.

(** The town selection block: [selected_towns] is what the multiselect
    returned. *)
Definition town_filter (selected_towns : list cell) (current_df : DataFrame)
  : result DataFrame :=
  match selected_towns with
  | [] => Ok current_df
  | _ =>
      town ← getitem "town" current_df;
      Ok (select_rows (λ r, isin selected_towns (get "town" r)) current_df)
  end.

(** What the sidebar shows for the year. *)
Inductive year_control :=
| NoYearControl
| YearInfo (year : Z)
| YearSlider (min_year max_year : Z).

(** [(df['year'] >= lo) & (df['year'] <= hi)]; comparisons with a missing
    year are false. *)
Definition year_between (year_range : Z * Z) (r : gmap string cell) : bool :=
  match get "year" r with
  | CNum y => Qle_bool (inject_Z year_range.1) y && Qle_bool y (inject_Z year_range.2)
  | _ => false
  end.

(** The year slider block: [year_range] is what the slider returns when it
    is shown. *)
Definition year_filter (clean_df filtered_df : DataFrame) (year_range : Z * Z)
  : result (year_control * DataFrame) :=
  if has_col "year" clean_df then
    year ← getitem "year" filtered_df;
    min_year ← series_min year ≫= int;
    max_year ← series_max year ≫= int;
    if (min_year <? max_year)%Z
    then Ok (YearSlider min_year max_year, select_rows (year_between year_range) filtered_df)
    else Ok (YearInfo min_year, filtered_df)
  else Ok (NoYearControl, filtered_df).

Record metrics := mkMetrics {
  avg_price : option Q;
  avg_size : option Q;
  transactions : nat
}.

(** What a run of the script leaves on the page. *)
Inductive screen :=
| Stopped (errors : list string)              (* [st.stop()] after loading *)
| NoData (sidebar : year_control)             (* warning, then [st.stop()] *)
| Dashboard (sidebar : year_control) (view : DataFrame) (m : metrics).

(** Everything from the sampling to the emptiness test, for an already
    cleaned frame. *)
Definition view_of (clean_df : DataFrame) (records_to_analyze : nat)
    (selected_towns : list cell) (year_range : Z * Z)
  : result (year_control * DataFrame) :=
  let current_df := head records_to_analyze clean_df in
  town ← getitem "town" current_df;
  all_towns ← sorted (unique town);
  filtered_df ← town_filter selected_towns current_df;
  year_filter clean_df filtered_df year_range.

Definition summary (filtered_df : DataFrame) : result metrics :=
  price ← getitem "resale_price" filtered_df ≫= series_mean;
  size ← getitem "floor_area_sqm" filtered_df ≫= series_mean;
  Ok (mkMetrics price size (length (rows filtered_df))).

Section Dashboard.

Variable numeric_of_object : cell → option Q.
Variable datetime_of_object : cell → option Timestamp.
Variable DataFrame_irregular : json → result DataFrame.

(** [run_dashboard] up to the metrics; the widgets' return values
    ([records_to_analyze], [selected_towns], [year_range]) are inputs. *)
Definition run_dashboard (x : http_exchange) (records_to_analyze : nat)
    (selected_towns : list cell) (year_range : Z * Z) : result screen :=
  '(errors, full_df) ← load_all_data DataFrame_irregular x;
  match full_df with
  | None => Ok (Stopped errors)
  | Some df =>
      if empty df then Ok (Stopped errors)
      else
        clean_df ← clean_data numeric_of_object datetime_of_object (Some df);
        match clean_df with
        | None => Raise (TypeError "'NoneType' object has no attribute 'shape'")
        | Some clean_df =>
            '(sidebar, filtered_df) ←
               view_of clean_df records_to_analyze selected_towns year_range;
            if empty filtered_df then Ok (NoData sidebar)
            else m ← summary filtered_df; Ok (Dashboard sidebar filtered_df m)
        end
  end.

End Dashboard.

(** ** A concrete instance: the scenario of the specification

    Element parsers for the two literal forms the scenario uses (unsigned
    decimal integers and [YYYY-MM] months), and its three raw records. *)

Module Scenario.

Definition digit_of (a : ascii) : option Z :=
  let n := Z.of_nat (nat_of_ascii a) in
  if (48 <=? n)%Z && (n <=? 57)%Z then Some (n - 48)%Z else None.

Fixpoint digits_value (acc : Z) (s : string) : option Z :=
  match s with
  | EmptyString => Some acc
  | String a s' => d ← digit_of a; digits_value (10 * acc + d)%Z s'
  end.

Definition parse_unsigned (s : string) : option Z :=
  match s with
  | EmptyString => None
  | _ => digits_value 0 s
  end.

Definition numeric_of_object (c : cell) : option Q :=
  match c with
  | CStr s => inject_Z <$> parse_unsigned s
  | _ => None
  end.

Definition datetime_of_object (c : cell) : option Timestamp :=
  match c with
  | CStr s =>
      if bool_decide (String.length s = 7%nat ∧ substring 4 1 s = "-") then
        y ← parse_unsigned (substring 0 4 s);
        m ← parse_unsigned (substring 5 2 s);
        if (1 <=? m)%Z && (m <=? 12)%Z then Some (mkTimestamp y m 1) else None
      else None
  | _ => None
  end.

Definition DataFrame_irregular (data : json) : result DataFrame :=
  Raise (ValueError "DataFrame constructor not properly called!").

Definition record (town flat_type month resale_price floor_area_sqm : string) : json :=
  JObj [("town", JStr town); ("flat_type", JStr flat_type); ("month", JStr month);
        ("resale_price", JStr resale_price); ("floor_area_sqm", JStr floor_area_sqm);
        ("block", JStr "123"); ("street_name", JStr "BEDOK NTH AVE 1")].

Definition records : list json :=
  [ record "BEDOK" "3 ROOM" "2023-05" "450000" "65";
    record "BEDOK" "4 ROOM" "2023-06" "not_a_number" "90";
    record "TAMPINES" "3 ROOM" "2022-01" "380000" "68" ].

Definition envelope (recs : list json) : json :=
  JObj [("success", JBool true); ("result", JObj [("records", JArr recs)])].

Definition raw_df : DataFrame :=
  match DataFrame_new DataFrame_irregular (JArr records) with
  | Ok df => df
  | Raise _ => mkDataFrame [] []
  end.

Definition clean := clean_data numeric_of_object datetime_of_object.

Definition cleaned_df : DataFrame :=
  match clean (Some raw_df) with
  | Ok (Some df) => df
  | _ => mkDataFrame [] []
  end.




(** A fetch in which no record has a numeric price. *)
Definition unpriced_records : list json :=
  [ record "BEDOK" "4 ROOM" "2023-06" "not_a_number" "90" ].

(** A frame without a [resale_price] column. *)
Definition priceless_df : DataFrame :=
  DataFrame_of_records
    [ [("town", CStr "BEDOK"); ("month", CStr "2023-05"); ("floor_area_sqm", CStr "65")] ].

Definition dashboard :=
  run_dashboard numeric_of_object datetime_of_object DataFrame_irregular.

End Scenario.

(** ** Row-wise reading of the cleaner and notions used by the statements *)

Section RowWise.

Variable numeric_of_object : cell → option Q.
Variable datetime_of_object : cell → option Timestamp.

(** What the type-casting loop does to one row for one column. *)
Definition cast_row (col : string) (r : gmap string cell) : gmap string cell :=
  <[col := to_numeric_cell numeric_of_object (get col r)]> r.

(** What the year-extraction block does to one row. *)
Definition date_row (r : gmap string cell) : result (gmap string cell) :=
  m ← to_datetime_cell datetime_of_object (get "month" r);
  Ok (<["year" := dt_year_cell m]> (<["month" := m]> r)).

(** The row before the drop step, for a frame with column labels [cols]. *)
Definition clean_row (cols : list string) (r : gmap string cell)
  : result (gmap string cell) :=
  let r := if bool_decide ("resale_price" ∈ cols) then cast_row "resale_price" r else r in
  let r := if bool_decide ("floor_area_sqm" ∈ cols) then cast_row "floor_area_sqm" r else r in
  if bool_decide ("month" ∈ cols) then date_row r else Ok r.

(** The frame [clean_data] hands to [dropna]: the input after the
    type-casting loop and the year extraction. *)
Definition before_drop (df : DataFrame) : result DataFrame :=
  extract_year datetime_of_object
    (fold_left (cast_column numeric_of_object) cols_to_numeric df).

(** A row as the cleaner leaves it: the cells of the columns it writes are
    present and already of their target type, and [year] agrees with
    [month]. *)
Definition cleaned_row (cols : list string) (r : gmap string cell) : Prop :=
  (∀ col, col ∈ cols_to_numeric → col ∈ cols →
     ∃ c, r !! col = Some c ∧ to_numeric_cell numeric_of_object c = c) ∧
  ("month" ∈ cols →
     ∃ m, r !! "month" = Some m ∧ to_datetime_cell datetime_of_object m = Ok m
          ∧ r !! "year" = Some (dt_year_cell m)).

End RowWise.

(** Column labels after cleaning: [year] is appended when it is derived and
    was not there. *)
Definition clean_columns (cols : list string) : list string :=
  if bool_decide ("month" ∈ cols) && negb (bool_decide ("year" ∈ cols))
  then cols ++ ["year"] else cols.

Definition price_present (r : gmap string cell) : bool :=
  notna (get "resale_price" r).

(** The columns the cleaner writes; every other column is a passthrough. *)
Definition core_written : list string :=
  ["resale_price"; "floor_area_sqm"; "month"; "year"].

Definition same_passthrough (r r' : gmap string cell) : Prop :=
  ∀ c, c ∉ core_written → r' !! c = r !! c.

(** [int(df['year'].min())] and [int(df['year'].max())] of a frame. *)
Definition year_bounds (df : DataFrame) : result (Z * Z) :=
  year ← getitem "year" df;
  min_year ← series_min year ≫= int;
  max_year ← series_max year ≫= int;
  Ok (min_year, max_year).

Definition is_slider (ctl : year_control) : bool :=
  match ctl with YearSlider _ _ => true | _ => false end.



(** ** The widgets' arguments, and notions used by further statements *)

Definition MAX_RECORDS_TO_LOAD : Z := 10000.

(** Upper bound and default value handed to the sample-size slider (its
    lower bound and step are 100); [clean_df.shape[0]] is the row count. *)
Definition max_slider_val (clean_df : DataFrame) : Z :=
  Z.min (Z.of_nat (length (rows clean_df))) MAX_RECORDS_TO_LOAD.

Definition default_sample (clean_df : DataFrame) : Z :=
  Z.min 2000 (max_slider_val clean_df).

(** Default of the town multiselect: [all_towns[:5]]. *)
Definition default_towns (all_towns : list cell) : list cell :=
  take 5 all_towns.

(** A [year] cell as the cleaner derives it: an integer, or missing. *)
Definition derived_year (r : gmap string cell) : Prop :=
  get "year" r = CNA ∨ ∃ y : Z, get "year" r = CNum (inject_Z y).

(** The rows the two filters keep, as one predicate on a sampled row. *)
Definition in_view (selected_towns : list cell) (ctl : year_control)
    (year_range : Z * Z) (r : gmap string cell) : bool :=
  (match selected_towns with
   | [] => true
   | _ => isin selected_towns (get "town" r)
   end)
  && (if is_slider ctl then year_between year_range r else true).

(** The value of [obj[key]] as a cell, missing when the key is absent. *)
Definition member_cell (key : string) (obj : json) : cell :=
  match subscript key obj with
  | Ok v => default CNA (scalar_cell v)
  | Raise _ => CNA
  end.

Section CleanerNotions.

Variable numeric_of_object : cell → option Q.
Variable datetime_of_object : cell → option Timestamp.

(** The frame has a [month] column with a cell [pd.to_datetime] rejects. *)
Definition month_unparseable (df : DataFrame) : Prop :=
  has_col "month" df = true
  ∧ Exists (λ r, to_datetime_cell datetime_of_object (get "month" r)
                 = Raise DateParseError) (rows df).

(** The input rows whose price survives the coercion. *)
Definition price_coercible (r : gmap string cell) : bool :=
  notna (to_numeric_cell numeric_of_object (get "resale_price" r)).

End CleanerNotions.

(** * Properties *)

(** ** Generalities on [result], [traverse] and frames *)

Lemma bind_Ok {A B} (m : result A) (f : A → result B) (b : B) :
  m ≫= f = Ok b ↔ ∃ a, m = Ok a ∧ f a = Ok b.
Proof.
  destruct m as [a|e]; simpl.
  - split; [eauto | intros (a' & [= ->] & H); exact H].
  - split; [discriminate | intros (a' & [=] & _)].
Qed.

Lemma traverse_fmap {A B C} (f : B → result C) (g : A → B) (l : list A) :
  traverse f (g <$> l) = traverse (f ∘ g) l.
Proof.
  induction l as [|a l IH]; [done|].
  rewrite fmap_cons. cbn [traverse]. by rewrite IH.
Qed.

Lemma traverse_Ok_Forall2 {A B} (f : A → result B) (l : list A) (bs : list B) :
  traverse f l = Ok bs ↔ Forall2 (λ a b, f a = Ok b) l bs.
Proof.
  revert bs. induction l as [|a l IH]; intros bs; simpl.
  - split; [intros [= <-]; constructor | by inversion 1].
  - split.
    + intros H. apply bind_Ok in H as (b & Hb & H).
      apply bind_Ok in H as (bs' & Hbs & [= <-]).
      constructor; [done | by apply IH].
    + inversion 1 as [|? b ? bs' Hb Hbs]; subst.
      apply IH in Hbs. by rewrite Hb, Hbs.
Qed.

Lemma traverse_Ok_length {A B} (f : A → result B) (l : list A) (bs : list B) :
  traverse f l = Ok bs → length bs = length l.
Proof.
  intros H. apply traverse_Ok_Forall2 in H. symmetry. by eapply Forall2_length.
Qed.

Lemma traverse_fixed {A} (f : A → result A) (l : list A) :
  Forall (λ a, f a = Ok a) l → traverse f l = Ok l.
Proof.
  intros H. apply traverse_Ok_Forall2.
  induction H; constructor; done.
Qed.

Lemma zip_with_fmap_same {A B C} (f : A → B → C) (g : A → B) (l : list A) :
  zip_with f l (g <$> l) = (λ a, f a (g a)) <$> l.
Proof.
  induction l as [|a l IH]; [done|].
  rewrite !fmap_cons. cbn [zip_with]. by rewrite IH.
Qed.

Lemma filter_all {A} (p : A → bool) (l : list A) :
  Forall (λ a, p a = true) l → List.filter p l = l.
Proof. induction 1 as [|a l Ha _ IH]; simpl; [done | by rewrite Ha, IH]. Qed.

Lemma filter_Forall {A} (p : A → bool) (l : list A) :
  Forall (λ a, p a = true) (List.filter p l).
Proof.
  induction l as [|a l IH]; simpl; [constructor|].
  destruct (p a) eqn:Ha; [constructor|]; done.
Qed.

Lemma filter_sublist {A} (p : A → bool) (l : list A) :
  sublist (List.filter p l) l.
Proof.
  induction l as [|a l IH]; simpl; [constructor|].
  destruct (p a); by constructor.
Qed.

Lemma has_col_true c df : has_col c df = true ↔ c ∈ columns df.
Proof. unfold has_col. apply bool_decide_eq_true. Qed.

Lemma has_col_false c df : has_col c df = false ↔ c ∉ columns df.
Proof. unfold has_col. apply bool_decide_eq_false. Qed.

Lemma rows_set_column_fmap c (f : cell → cell) df :
  rows (set_column c (f <$> column c df) df)
  = (λ r, <[c := f (get c r)]> r) <$> rows df.
Proof.
  unfold set_column, column; simpl.
  rewrite <- list_fmap_compose. apply zip_with_fmap_same.
Qed.

Lemma get_insert_eq c v (r : gmap string cell) : get c (<[c := v]> r) = v.
Proof. unfold get. by rewrite lookup_insert_eq. Qed.

Lemma get_insert_ne c c' v (r : gmap string cell) :
  c ≠ c' → get c' (<[c := v]> r) = get c' r.
Proof. intros H. unfold get. by rewrite lookup_insert_ne. Qed.

Lemma get_lookup c (r : gmap string cell) v : r !! c = Some v → get c r = v.
Proof. intros H. unfold get. by rewrite H. Qed.

Lemma clean_columns_elem c cols :
  c ∈ clean_columns cols ↔ c ∈ cols ∨ (c = "year" ∧ "month" ∈ cols).
Proof.
  unfold clean_columns.
  destruct (bool_decide ("month" ∈ cols)) eqn:Hm;
    destruct (bool_decide ("year" ∈ cols)) eqn:Hy; simpl;
    try apply bool_decide_eq_true in Hm; try apply bool_decide_eq_false in Hm;
    try apply bool_decide_eq_true in Hy; try apply bool_decide_eq_false in Hy.
  - split; [auto | intros [H | [-> _]]; done].
  - rewrite elem_of_app, list_elem_of_singleton. tauto.
  - tauto.
  - tauto.
Qed.

Lemma clean_columns_idem cols : clean_columns (clean_columns cols) = clean_columns cols.
Proof.
  unfold clean_columns at 2.
  destruct (bool_decide ("month" ∈ cols) && negb (bool_decide ("year" ∈ cols))) eqn:H;
    [|unfold clean_columns; by rewrite H].
  unfold clean_columns.
  assert (bool_decide ("year" ∈ (cols ++ ["year"])%list) = true) as ->;
    [|cbn [negb]; by rewrite andb_false_r, H].
  apply bool_decide_eq_true. rewrite elem_of_app, list_elem_of_singleton. auto.
Qed.

Lemma clean_columns_core c cols :
  c ≠ "year" → bool_decide (c ∈ clean_columns cols) = bool_decide (c ∈ cols).
Proof.
  intros Hc. apply bool_decide_ext. rewrite clean_columns_elem. tauto.
Qed.

Lemma traverse_ext {A B} (f g : A → result B) (l : list A) :
  (∀ a, f a = g a) → traverse f l = traverse g l.
Proof. intros H. induction l as [|a l IH]; simpl; [done | by rewrite H, IH]. Qed.

Lemma traverse_pure {A B} (g : A → B) (l : list A) :
  traverse (λ a, Ok (g a)) l = Ok (g <$> l).
Proof.
  induction l as [|a l IH]; [done|].
  rewrite fmap_cons. cbn [traverse]. by rewrite IH.
Qed.

Lemma frame_eta df : df = {| columns := columns df; rows := rows df |}.
Proof. by destruct df. Qed.

Lemma dropna_price cols rs :
  dropna ["resale_price"] {| columns := cols; rows := rs |}
  = if bool_decide ("resale_price" ∈ cols)
    then Ok {| columns := cols; rows := List.filter price_present rs |}
    else Raise (KeyError ["resale_price"]).
Proof.
  unfold dropna, has_col; cbn [List.filter columns].
  destruct (bool_decide ("resale_price" ∈ cols)); cbn [negb]; [|done].
  unfold select_rows; cbn [columns rows]. do 2 f_equal.
  apply List.filter_ext. intros r. unfold price_present. cbn [forallb].
  apply andb_true_r.
Qed.

(** ** The cleaner, row by row *)

Section CleanerFacts.

Variable numeric_of_object : cell → option Q.
Variable datetime_of_object : cell → option Timestamp.

Local Abbreviation to_numeric_cell := (to_numeric_cell numeric_of_object).
Local Abbreviation to_datetime_cell := (to_datetime_cell datetime_of_object).
Local Abbreviation cast_column := (cast_column numeric_of_object).
Local Abbreviation extract_year := (extract_year datetime_of_object).
Local Abbreviation clean_data := (clean_data numeric_of_object datetime_of_object).
Local Abbreviation cast_row := (cast_row numeric_of_object).
Local Abbreviation date_row := (date_row datetime_of_object).
Local Abbreviation clean_row := (clean_row numeric_of_object datetime_of_object).
Local Abbreviation before_drop := (before_drop numeric_of_object datetime_of_object).

Lemma columns_cast_column df col : columns (cast_column df col) = columns df.
Proof.
  unfold cast_column. destruct (has_col col df) eqn:H; [|done].
  unfold set_column; cbn [columns]. by rewrite H.
Qed.

Lemma rows_cast_column df col :
  rows (cast_column df col)
  = (if has_col col df then cast_row col else id) <$> rows df.
Proof.
  unfold cast_column. destruct (has_col col df) eqn:H.
  - apply rows_set_column_fmap.
  - by rewrite list_fmap_id.
Qed.

Lemma date_rows_traverse (rs : list (gmap string cell)) :
  (ms ← traverse to_datetime_cell (get "month" <$> rs);
   let dated := zip_with (λ r v, <["month" := v]> r) rs ms in
   Ok (zip_with (λ r v, <["year" := v]> r) dated
         (dt_year_cell <$> (get "month" <$> dated))))
  = traverse date_row rs.
Proof.
  induction rs as [|r rs IH]; [done|].
  rewrite fmap_cons. cbn [traverse]. rewrite <- IH. unfold date_row.
  destruct (to_datetime_cell (get "month" r)) as [m|e]; [|done].
  cbn [mbind result_bind].
  destruct (traverse to_datetime_cell (get "month" <$> rs)) as [ms|e]; [|done].
  cbn [mbind result_bind zip_with]. rewrite !fmap_cons. cbn [zip_with].
  by rewrite get_insert_eq.
Qed.

Lemma extract_year_rowwise df :
  extract_year df
  = if has_col "month" df
    then rs ← traverse date_row (rows df);
         Ok {| columns := clean_columns (columns df); rows := rs |}
    else Ok df.
Proof.
  unfold extract_year. destruct (has_col "month" df) eqn:Hm; [|done].
  rewrite <- date_rows_traverse. unfold to_datetime, column.
  destruct (traverse to_datetime_cell (get "month" <$> rows df)) as [ms|e]; [|done].
  cbn [mbind result_bind]. unfold set_column at 1, dt_year, column.
  cbn [rows columns]. do 2 f_equal.
  unfold clean_columns, has_col in *. cbn [columns]. rewrite Hm. cbn [andb].
  unfold set_column, has_col; cbn [columns]. rewrite Hm.
  by destruct (bool_decide ("year" ∈ columns df)).
Qed.

(** The column-wise code before the drop computes [clean_row] on each row. *)
Lemma before_drop_rowwise df :
  before_drop df
  = mid ← traverse (clean_row (columns df)) (rows df);
    Ok {| columns := clean_columns (columns df); rows := mid |}.
Proof.
  unfold before_drop, cols_to_numeric. cbn [fold_left].
  set (d1 := cast_column df "resale_price").
  set (d2 := cast_column d1 "floor_area_sqm").
  assert (columns d2 = columns df) as Hc
    by (unfold d2, d1; by rewrite !columns_cast_column).
  assert (rows d2 = ((if has_col "floor_area_sqm" df then cast_row "floor_area_sqm" else id)
                     ∘ (if has_col "resale_price" df then cast_row "resale_price" else id))
                    <$> rows df) as Hr.
  { unfold d2. rewrite rows_cast_column. unfold d1 at 2. rewrite rows_cast_column.
    rewrite <- list_fmap_compose. f_equal.
    unfold has_col, d1. by rewrite columns_cast_column. }
  rewrite extract_year_rowwise. unfold has_col at 1. rewrite Hc.
  unfold clean_row.
  destruct (bool_decide ("month" ∈ columns df)) eqn:Hm.
  - rewrite Hr, traverse_fmap. f_equal.
    apply traverse_ext. intros r. unfold has_col, compose.
    by destruct (bool_decide ("resale_price" ∈ columns df)),
                (bool_decide ("floor_area_sqm" ∈ columns df)).
  - rewrite traverse_pure. cbn [mbind result_bind].
    rewrite (frame_eta d2), Hc, Hr. unfold clean_columns. rewrite Hm. cbn [andb].
    do 2 f_equal. apply list_fmap_ext. intros _ r _. unfold has_col, compose.
    by destruct (bool_decide ("resale_price" ∈ columns df)),
                (bool_decide ("floor_area_sqm" ∈ columns df)).
Qed.

Lemma clean_data_stages df :
  clean_data (Some df)
  = mid ← before_drop df; out ← dropna ["resale_price"] mid; Ok (Some out).
Proof. reflexivity. Qed.

(** The column-wise code of [clean_data] computes, row by row, [clean_row]
    followed by the drop of rows without a price. *)
Lemma clean_data_rowwise df :
  clean_data (Some df)
  = mid ← traverse (clean_row (columns df)) (rows df);
    if has_col "resale_price" df
    then Ok (Some {| columns := clean_columns (columns df);
                     rows := List.filter price_present mid |})
    else Raise (KeyError ["resale_price"]).
Proof.
  rewrite clean_data_stages, before_drop_rowwise.
  destruct (traverse (clean_row (columns df)) (rows df)) as [mid|e]; [|done].
  cbn [mbind result_bind]. rewrite dropna_price, clean_columns_core by done.
  unfold has_col. by destruct (bool_decide ("resale_price" ∈ columns df)).
Qed.

Lemma to_numeric_cell_cases c :
  (∃ q, to_numeric_cell c = CNum q) ∨ to_numeric_cell c = CNA.
Proof.
  destruct c; simpl; eauto; destruct (numeric_of_object _); eauto.
Qed.

Lemma to_numeric_cell_idem c : to_numeric_cell (to_numeric_cell c) = to_numeric_cell c.
Proof. by destruct (to_numeric_cell_cases c) as [[q ->] | ->]. Qed.

Lemma to_datetime_cell_idem c m : to_datetime_cell c = Ok m → to_datetime_cell m = Ok m.
Proof.
  destruct c; simpl; try destruct (datetime_of_object _); intros [= <-]; done.
Qed.

Lemma cols_to_numeric_elem col :
  col ∈ cols_to_numeric ↔ col = "resale_price" ∨ col = "floor_area_sqm".
Proof.
  unfold cols_to_numeric. rewrite !elem_of_cons, elem_of_nil. tauto.
Qed.

Lemma core_written_elem c :
  c ∉ core_written ↔
  c ≠ "resale_price" ∧ c ≠ "floor_area_sqm" ∧ c ≠ "month" ∧ c ≠ "year".
Proof.
  unfold core_written. rewrite !not_elem_of_cons, elem_of_nil. tauto.
Qed.

(** Case analysis on which of the two numeric columns a frame has. *)
Ltac case_numeric_columns cols :=
  destruct (bool_decide ("resale_price" ∈ cols)),
           (bool_decide ("floor_area_sqm" ∈ cols)).

(** How [clean_row] acts on each cell of a row. *)
Lemma clean_row_lookup cols r r' :
  clean_row cols r = Ok r' →
  (∀ col, col ∈ cols_to_numeric →
     r' !! col = if bool_decide (col ∈ cols)
                 then Some (to_numeric_cell (get col r)) else r !! col) ∧
  (if bool_decide ("month" ∈ cols)
   then ∃ m, to_datetime_cell (get "month" r) = Ok m
             ∧ r' !! "month" = Some m ∧ r' !! "year" = Some (dt_year_cell m)
   else r' !! "month" = r !! "month" ∧ r' !! "year" = r !! "year") ∧
  same_passthrough r r'.
Proof.
  unfold clean_row, date_row, cast_row, same_passthrough. intros H.
  destruct (bool_decide ("month" ∈ cols)).
  - apply bind_Ok in H as (m & Hm & [= <-]).
    assert (to_datetime_cell (get "month" r) = Ok m) as Hm'.
    { revert Hm. case_numeric_columns cols; by rewrite ?get_insert_ne by done. }
    split_and!.
    + intros col [-> | ->]%cols_to_numeric_elem;
        case_numeric_columns cols;
        rewrite ?get_insert_ne by done; by simplify_map_eq.
    + exists m. by simplify_map_eq.
    + intros c (? & ? & ? & ?)%core_written_elem.
      case_numeric_columns cols; by simplify_map_eq.
  - injection H as <-. split; [|split].
    + intros col [-> | ->]%cols_to_numeric_elem;
        case_numeric_columns cols;
        rewrite ?get_insert_ne by done; by simplify_map_eq.
    + case_numeric_columns cols; by simplify_map_eq.
    + intros c (? & ? & ? & ?)%core_written_elem.
      case_numeric_columns cols; by simplify_map_eq.
Qed.

Lemma clean_row_cleaned cols r r' :
  clean_row cols r = Ok r' → cleaned_row numeric_of_object datetime_of_object cols r'.
Proof.
  intros (Hnum & Hmonth & _)%clean_row_lookup. split.
  - intros col Hcol Hin. rewrite (Hnum col Hcol), bool_decide_eq_true_2 by done.
    eexists; split; [done | apply to_numeric_cell_idem].
  - intros Hin. rewrite bool_decide_eq_true_2 in Hmonth by done.
    destruct Hmonth as (m & Hm & ? & ?). exists m. split_and!; try done.
    by eapply to_datetime_cell_idem.
Qed.

Lemma clean_row_fixed cols r :
  cleaned_row numeric_of_object datetime_of_object cols r → clean_row cols r = Ok r.
Proof.
  intros [Hnum Hmonth]. unfold clean_row.
  assert (∀ col, col ∈ cols_to_numeric →
            (if bool_decide (col ∈ cols) then cast_row col r else r) = r) as Hcast.
  { intros col Hcol. case_bool_decide as Hin; [|done].
    destruct (Hnum col Hcol Hin) as (c & Hc & Hfix). unfold cast_row.
    rewrite (get_lookup _ _ _ Hc), Hfix. by apply insert_id. }
  rewrite !Hcast by (apply cols_to_numeric_elem; auto).
  case_bool_decide as Hin; [|done].
  destruct (Hmonth Hin) as (m & Hm & Hfix & Hy). unfold date_row.
  rewrite (get_lookup _ _ _ Hm), Hfix. cbn [mbind result_bind].
  rewrite (insert_id r "month" m) by done. by rewrite insert_id.
Qed.

Lemma clean_row_columns cols r : clean_row (clean_columns cols) r = clean_row cols r.
Proof. unfold clean_row. by rewrite !clean_columns_core. Qed.

Lemma clean_row_raises cols r e : clean_row cols r = Raise e → e = DateParseError.
Proof.
  unfold clean_row, date_row. case_bool_decide; [|done].
  match goal with |- context [to_datetime_cell ?c] => generalize c end.
  intros c. unfold to_datetime_cell.
  destruct c; cbn; try destruct (datetime_of_object _); cbn; congruence.
Qed.

Lemma traverse_clean_row_raises cols rs e :
  traverse (clean_row cols) rs = Raise e → e = DateParseError.
Proof.
  induction rs as [|r rs IH]; [done|]. cbn [traverse].
  destruct (clean_row cols r) eqn:Hr; cbn [mbind result_bind].
  - destruct (traverse (clean_row cols) rs); cbn [mbind result_bind]; [done|].
    intros [= <-]. by apply IH.
  - intros [= <-]. by eapply clean_row_raises.
Qed.

(** What a successful run of [clean_data] returns. *)
Lemma clean_data_Ok df out :
  clean_data (Some df) = Ok (Some out) ↔
  ∃ mid, traverse (clean_row (columns df)) (rows df) = Ok mid
         ∧ "resale_price" ∈ columns df
         ∧ out = {| columns := clean_columns (columns df);
                    rows := List.filter price_present mid |}.
Proof.
  rewrite clean_data_rowwise, bind_Ok. unfold has_col.
  split; intros (mid & Hmid & H); exists mid; (split; [done|]).
  - case_bool_decide; [|done]. by injection H as <-.
  - destruct H as [Hin ->]. by rewrite bool_decide_eq_true_2.
Qed.

Lemma before_drop_Ok df mid :
  before_drop df = Ok mid ↔
  traverse (clean_row (columns df)) (rows df) = Ok (rows mid)
  ∧ columns mid = clean_columns (columns df).
Proof.
  rewrite before_drop_rowwise, bind_Ok. split.
  - by intros (rs & Hrs & [= <-]).
  - intros [Hrs Hc]. exists (rows mid). split; [done|].
    rewrite <- Hc. by destruct mid.
Qed.

Lemma before_drop_raises df e : before_drop df = Raise e → e = DateParseError.
Proof.
  rewrite before_drop_rowwise.
  destruct (traverse _ _) eqn:H; [done|]. intros [= <-].
  by eapply traverse_clean_row_raises.
Qed.


(** ** Claims about [clean_data] *)

(** C5. [clean_data] is idempotent: cleaning the outcome of a cleaning
    gives that same outcome, for every input (an absent frame, a frame on
    which cleaning raises, or a frame that is cleaned). *)
Theorem clean_data_idempotent (x : option DataFrame) :
  clean_data x ≫= clean_data = clean_data x.
Proof.
  destruct x as [df|]; [|done].
  destruct (clean_data (Some df)) as [[out|]|e] eqn:H; [|done..].
  cbn [mbind result_bind].
  apply clean_data_Ok in H as (mid & Hmid & Hprice & ->).
  apply clean_data_Ok. exists (List.filter price_present mid). cbn [columns rows].
  split_and!.
  - apply traverse_fixed. apply traverse_Ok_Forall2 in Hmid.
    assert (Forall (cleaned_row numeric_of_object datetime_of_object (columns df)) mid)
      as Hall.
    { clear -Hmid. induction Hmid; constructor; [by eapply clean_row_cleaned | done]. }
    clear -Hall. induction Hall as [|m mid Hm _ IH]; cbn [List.filter]; [constructor|].
    destruct (price_present m); [constructor|]; try done.
    rewrite clean_row_columns. by apply clean_row_fixed.
  - apply clean_columns_elem. by left.
  - by rewrite clean_columns_idem, (filter_all _ _ (filter_Forall _ _)).
Qed.

(** C4. Every row of a cleaned frame carries a numeric [resale_price];
    the frame handed to the drop step has as many rows as the input, and the
    cleaned frame is that frame without the rows whose price is missing. *)
Theorem clean_data_price_present df out :
  clean_data (Some df) = Ok (Some out) →
  Forall (λ r, ∃ q, get "resale_price" r = CNum q) (rows out) ∧
  ∃ mid, before_drop df = Ok mid
         ∧ length (rows mid) = length (rows df)
         ∧ out = select_rows price_present mid.
Proof.
  intros (mid & Hmid & Hprice & ->)%clean_data_Ok. cbn [rows]. split.
  - apply traverse_Ok_Forall2 in Hmid.
    assert (Forall (λ m, (∃ q, get "resale_price" m = CNum q)
                         ∨ get "resale_price" m = CNA) mid) as Hall.
    { clear -Hmid Hprice. induction Hmid as [|r m rs ms Hm _ IH]; constructor; [|done].
      apply clean_row_lookup in Hm as (Hnum & _).
      specialize (Hnum "resale_price"). rewrite bool_decide_eq_true_2 in Hnum by done.
      rewrite (get_lookup _ _ _ (Hnum ltac:(apply cols_to_numeric_elem; auto))).
      apply to_numeric_cell_cases. }
    clear -Hall. induction Hall as [|m mid Hm _ IH]; cbn [List.filter]; [constructor|].
    unfold price_present at 1. destruct Hm as [[q Hq] | Hna].
    + rewrite Hq. cbn [notna]. constructor; eauto.
    + by rewrite Hna.
  - exists {| columns := clean_columns (columns df); rows := mid |}. split_and!.
    + by apply before_drop_Ok.
    + by eapply traverse_Ok_length.
    + done.
Qed.


(** C10. On a frame without a [resale_price] column [clean_data] returns no
    frame: once the casting loop and the year extraction are through, the
    drop raises [KeyError]; the two earlier steps skip an absent column. *)
Theorem clean_data_without_price df :
  has_col "resale_price" df = false →
  (∀ out, clean_data (Some df) ≠ Ok out) ∧
  (∀ mid, before_drop df = Ok mid →
     dropna ["resale_price"] mid = Raise (KeyError ["resale_price"])
     ∧ clean_data (Some df) = Raise (KeyError ["resale_price"])) ∧
  (∀ e, before_drop df = Raise e → clean_data (Some df) = Raise DateParseError) ∧
  (∀ d col, has_col col d = false → cast_column d col = d) ∧
  (∀ d, has_col "month" d = false → extract_year d = Ok d).
Proof.
  intros Hno. split_and!.
  - intros out H. rewrite clean_data_rowwise, Hno in H.
    by destruct (traverse _ _).
  - intros mid Hmid.
    assert (dropna ["resale_price"] mid = Raise (KeyError ["resale_price"])) as Hd.
    { apply before_drop_Ok in Hmid as [_ Hc].
      rewrite (frame_eta mid), dropna_price, Hc, clean_columns_core by done.
      unfold has_col in Hno. by rewrite Hno. }
    split; [done|]. rewrite clean_data_stages, Hmid. cbn [mbind result_bind].
    by rewrite Hd.
  - intros e He. rewrite clean_data_stages, He. cbn [mbind result_bind].
    by rewrite (before_drop_raises _ _ He).
  - intros d col H. unfold cast_column. by rewrite H.
  - intros d H. unfold extract_year. by rewrite H.
Qed.

End CleanerFacts.

(** ** The filter pipeline *)

Lemma Qmin2_le_r a x : (Qmin2 a x <= x)%Q.
Proof.
  unfold Qmin2. destruct (Qle_bool a x) eqn:H.
  - by apply Qle_bool_iff.
  - apply Qle_refl.
Qed.

Lemma Qmax2_ge_r b x : (x <= Qmax2 b x)%Q.
Proof.
  unfold Qmax2. destruct (Qle_bool b x) eqn:H.
  - apply Qle_refl.
  - apply Qlt_le_weak, Qnot_le_lt. intros Hle.
    apply Qle_bool_iff in Hle. congruence.
Qed.


(** Truncation towards zero is monotone. *)
Lemma trunc_mono (p q : Q) :
  (p <= q)%Q → (Z.quot (Qnum p) (Zpos (Qden p)) ≤ Z.quot (Qnum q) (Zpos (Qden q)))%Z.
Proof.
  unfold Qle. intros H.
  rewrite <- (Z.quot_mul_cancel_r (Qnum p) (Zpos (Qden p)) (Zpos (Qden q))) by done.
  rewrite <- (Z.quot_mul_cancel_r (Qnum q) (Zpos (Qden q)) (Zpos (Qden p))) by done.
  rewrite (Z.mul_comm (Zpos (Qden q)) (Zpos (Qden p))).
  apply Z.quot_le_mono; [lia | done].
Qed.


Lemma year_filter_bounds clean_df filtered_df year_range :
  year_filter clean_df filtered_df year_range
  = if has_col "year" clean_df then
      '(lo, hi) ← year_bounds filtered_df;
      if (lo <? hi)%Z
      then Ok (YearSlider lo hi, select_rows (year_between year_range) filtered_df)
      else Ok (YearInfo lo, filtered_df)
    else Ok (NoYearControl, filtered_df).
Proof.
  unfold year_filter, year_bounds. destruct (has_col "year" clean_df); [|done].
  destruct (getitem "year" filtered_df) as [year|e]; [|done]. cbn [mbind result_bind].
  destruct (series_min year) as [mn|e]; [|done]. cbn [mbind result_bind].
  destruct (int mn) as [lo|e]; [|done]. cbn [mbind result_bind].
  destruct (series_max year) as [mx|e]; [|done]. cbn [mbind result_bind].
  by destruct (int mx) as [hi|e].
Qed.

Lemma view_of_Ok clean_df n towns year_range ctl view :
  view_of clean_df n towns year_range = Ok (ctl, view) ↔
  ∃ town all_towns filtered_df,
    getitem "town" (head n clean_df) = Ok town
    ∧ sorted (unique town) = Ok all_towns
    ∧ town_filter towns (head n clean_df) = Ok filtered_df
    ∧ year_filter clean_df filtered_df year_range = Ok (ctl, view).
Proof.
  unfold view_of. rewrite bind_Ok. split.
  - intros (town & Ht & H). apply bind_Ok in H as (all_towns & Hs & H).
    apply bind_Ok in H as (filtered_df & Hf & H). eauto 10.
  - intros (town & all_towns & filtered_df & Ht & Hs & Hf & H).
    exists town. split; [done|]. rewrite Hs. cbn [mbind result_bind].
    by rewrite Hf.
Qed.

Lemma town_filter_Ok towns df out :
  town_filter towns df = Ok out →
  columns out = columns df ∧ sublist (rows out) (rows df).
Proof.
  unfold town_filter. destruct towns as [|t towns]; [by intros [= <-]|].
  destruct (getitem "town" df); [|done]. intros [= <-].
  split; [done | apply filter_sublist].
Qed.


Lemma isin_str towns s : isin towns (CStr s) = true ↔ CStr s ∈ towns.
Proof.
  unfold isin. rewrite existsb_exists. split.
  - intros (c & Hin & Heq). destruct c; try done.
    apply String.eqb_eq in Heq as ->. by apply list_elem_of_In.
  - intros Hin. exists (CStr s). split; [by apply list_elem_of_In|].
    apply String.eqb_refl.
Qed.


(** C8. For a sample size [k] not above the number of rows, the sampling
    step returns exactly the first [k] rows of the cleaned frame, in their
    original order, under the same columns. *)
Theorem head_first_rows (clean_df : DataFrame) (k : nat) :
  (k ≤ length (rows clean_df))%nat →
  length (rows (head k clean_df)) = k
  ∧ (∀ i, (i < k)%nat → rows (head k clean_df) !! i = rows clean_df !! i)
  ∧ rows clean_df = (rows (head k clean_df) ++ drop k (rows clean_df))%list
  ∧ columns (head k clean_df) = columns clean_df.
Proof.
  intros Hk. unfold head; cbn [rows columns]. split_and!.
  - by apply length_take_le.
  - intros i Hi. by apply lookup_take_lt.
  - by rewrite take_drop.
  - done.
Qed.

(** C7. An empty town selection leaves the sampled frame unchanged; a
    non-empty one keeps, in order, exactly the rows whose town is in the
    selection: every kept row's town is selected and no row with an
    unselected town remains. *)
Theorem town_filter_selects (selected_towns : list cell) (current_df : DataFrame) :
  (selected_towns ≠ [] → has_col "town" current_df = true) →
  ∃ filtered_df,
    town_filter selected_towns current_df = Ok filtered_df
    ∧ (selected_towns = [] → filtered_df = current_df)
    ∧ (selected_towns ≠ [] →
         columns filtered_df = columns current_df
         ∧ rows filtered_df
           = List.filter (λ r, isin selected_towns (get "town" r)) (rows current_df)
         ∧ Forall (λ r, isin selected_towns (get "town" r) = true) (rows filtered_df)
         ∧ (∀ r, r ∈ rows filtered_df ↔
                 r ∈ rows current_df ∧ isin selected_towns (get "town" r) = true)).
Proof.
  intros Hcol. unfold town_filter, getitem.
  destruct selected_towns as [|t towns]; [by eexists|].
  rewrite Hcol by done. cbn [mbind result_bind].
  eexists; split; [reflexivity|]. split; [done|]. intros _.
  unfold select_rows; cbn [rows columns]. split_and!; try done.
  - apply filter_Forall.
  - intros r. rewrite !list_elem_of_In, filter_In. tauto.
Qed.

Lemma year_filter_empty_raises clean_df filtered_df year_range :
  has_col "year" clean_df = true →
  columns filtered_df = columns clean_df →
  rows filtered_df = [] →
  year_filter clean_df filtered_df year_range
  = Raise (ValueError "cannot convert float NaN to integer").
Proof.
  intros Hy Hc Hr. unfold year_filter, getitem, has_col, column in *.
  by rewrite Hy, Hc, Hy, Hr.
Qed.



(** ** The fetcher *)

Section FetcherFacts.

Variable DataFrame_irregular : json → result DataFrame.

Local Abbreviation load_all_data := (load_all_data DataFrame_irregular).

(** The failures the [except] clause catches come back as an absent frame
    with one message. *)
Lemma load_request_failed text :
  load_all_data (RequestFailed text) = Ok (["Error fetching data: " ++ text], None).
Proof. reflexivity. Qed.

Lemma load_error_status status body :
  (400 ≤ status < 600)%Z →
  ∃ msg, load_all_data (Response status body) = Ok ([msg], None).
Proof.
  intros H. unfold load_all_data, is_error_status.
  destruct (Z.leb_spec 400 status), (Z.ltb_spec status 600); try lia.
  by eexists.
Qed.

Lemma load_undecodable status :
  ∃ msg, load_all_data (Response status None) = Ok ([msg], None).
Proof.
  unfold load_all_data. destruct (is_error_status status); by eexists.
Qed.

(** A well-formed envelope around a list of records gives the frame of all
    the records, one row each. *)
Lemma load_records status members items recs :
  is_error_status status = false →
  subscript "result" (JObj members) ≫= subscript "records" = Ok (JArr items) →
  mapM record_of items = Some recs →
  load_all_data (Response status (Some (JObj members)))
  = Ok ([], Some (DataFrame_of_records recs))
  ∧ length (rows (DataFrame_of_records recs)) = length items.
Proof.
  intros Hs Hsub Hrecs. unfold load_all_data. rewrite Hs. split.
  - apply bind_Ok in Hsub as (inner & Hi & Hr).
    rewrite Hi. cbn [mbind result_bind]. rewrite Hr. cbn [mbind result_bind].
    unfold DataFrame_new. by rewrite Hrecs.
  - unfold DataFrame_of_records; cbn [rows]. rewrite length_map.
    symmetry. by eapply length_mapM.
Qed.

(** C3, at its failing input. A successful response whose JSON body has no
    [result] member is not turned into an absent frame: the lookup raises
    [KeyError], which the [except] clause does not catch. *)
Theorem load_missing_result_raises :
  load_all_data (Response 200 (Some (JObj [("success", JBool false)])))
  = Raise (KeyError ["result"]).
Proof. reflexivity. Qed.

End FetcherFacts.

(** ** The dashboard run *)

Section DashboardFacts.

Variable numeric_of_object : cell → option Q.
Variable datetime_of_object : cell → option Timestamp.
Variable DataFrame_irregular : json → result DataFrame.

Local Abbreviation run_dashboard :=
  (run_dashboard numeric_of_object datetime_of_object DataFrame_irregular).

(** Once a non-empty frame is loaded and cleaned, the run is the filter
    pipeline followed by the emptiness test. *)
Lemma run_dashboard_cleaned x n towns year_range errors df cleaned :
  load_all_data DataFrame_irregular x = Ok (errors, Some df) →
  empty df = false →
  clean_data numeric_of_object datetime_of_object (Some df) = Ok (Some cleaned) →
  run_dashboard x n towns year_range
  = '(sidebar, view) ← view_of cleaned n towns year_range;
    if empty view then Ok (NoData sidebar)
    else m ← summary view; Ok (Dashboard sidebar view m).
Proof.
  intros Hl He Hc. unfold run_dashboard.
  rewrite Hl. cbn [mbind result_bind]. rewrite He, Hc. reflexivity.
Qed.

(** When the filter pipeline comes back with an empty view, the run ends on
    the warning, without metrics. *)
Lemma run_dashboard_empty_view x n towns year_range errors df cleaned sidebar view :
  load_all_data DataFrame_irregular x = Ok (errors, Some df) →
  empty df = false →
  clean_data numeric_of_object datetime_of_object (Some df) = Ok (Some cleaned) →
  view_of cleaned n towns year_range = Ok (sidebar, view) →
  empty view = true →
  run_dashboard x n towns year_range = Ok (NoData sidebar).
Proof.
  intros Hl He Hc Hv Hempty.
  rewrite (run_dashboard_cleaned _ _ _ _ _ _ _ Hl He Hc), Hv.
  cbn [mbind result_bind]. by rewrite Hempty.
Qed.

End DashboardFacts.

(** ** The scenario of the specification, evaluated *)

Example scenario_cleaned :
  columns Scenario.cleaned_df
  = ["town"; "flat_type"; "month"; "resale_price"; "floor_area_sqm";
     "block"; "street_name"; "year"]
  ∧ (λ r, (get "town" r, get "resale_price" r, get "floor_area_sqm" r, get "year" r))
      <$> rows Scenario.cleaned_df
    = [ (CStr "BEDOK", CNum 450000, CNum 65, CNum 2023);
        (CStr "TAMPINES", CNum 380000, CNum 68, CNum 2022) ].
Proof. split; vm_compute; reflexivity. Qed.

Example scenario_dashboard :
  ∃ view,
    Scenario.dashboard (Response 200 (Some (Scenario.envelope Scenario.records)))
      100 [CStr "BEDOK"] (2023, 2023)%Z
    = Ok (Dashboard (YearInfo 2023) view (mkMetrics (Some 450000%Q) (Some 65%Q) 1))
    ∧ get "flat_type" <$> rows view = [CStr "3 ROOM"].
Proof. eexists. split; vm_compute; reflexivity. Qed.

(** A view emptied by the year range ends on the warning. *)
Example scenario_year_range_without_rows :
  Scenario.dashboard (Response 200 (Some (Scenario.envelope Scenario.records)))
    100 [] (2024, 2025)%Z
  = Ok (NoData (YearSlider 2022 2023)).
Proof. vm_compute. reflexivity. Qed.

(** C2, at its failing inputs. With a [year] column, a view that is already
    empty when the year block starts does not reach the warning: the block
    takes [int] of the minimum of an empty column and raises.  This happens
    when no fetched record has a numeric price (whatever the widgets
    return), and when the town selection matches no sampled row. *)
Theorem empty_view_raises :
  (∀ n year_range,
     Scenario.dashboard
       (Response 200 (Some (Scenario.envelope Scenario.unpriced_records)))
       n [] year_range
     = Raise (ValueError "cannot convert float NaN to integer"))
  ∧ Scenario.dashboard (Response 200 (Some (Scenario.envelope Scenario.records)))
      100 [CStr "WOODLANDS"] (2022, 2023)%Z
    = Raise (ValueError "cannot convert float NaN to integer").
Proof.
  split.
  - intros [|n] year_range; vm_compute; reflexivity.
  - vm_compute. reflexivity.
Qed.


(** ** The statements at the scenario *)

Lemma clean_data_price_present_witness :
  Scenario.clean (Some Scenario.raw_df) = Ok (Some Scenario.cleaned_df)
  ∧ Forall (λ r, ∃ q, get "resale_price" r = CNum q) (rows Scenario.cleaned_df)
  ∧ ∃ mid, before_drop Scenario.numeric_of_object Scenario.datetime_of_object
             Scenario.raw_df = Ok mid
           ∧ length (rows mid) = length (rows Scenario.raw_df)
           ∧ Scenario.cleaned_df = select_rows price_present mid.
Proof.
  assert (Scenario.clean (Some Scenario.raw_df) = Ok (Some Scenario.cleaned_df)) as H
    by (vm_compute; reflexivity).
  split; [exact H|].
  exact (clean_data_price_present Scenario.numeric_of_object
           Scenario.datetime_of_object Scenario.raw_df Scenario.cleaned_df H).
Defined.


Lemma clean_data_without_price_witness :
  has_col "resale_price" Scenario.priceless_df = false
  ∧ Scenario.clean (Some Scenario.priceless_df) = Raise (KeyError ["resale_price"]).
Proof.
  assert (has_col "resale_price" Scenario.priceless_df = false) as Hno
    by (vm_compute; reflexivity).
  split; [exact Hno|].
  destruct (clean_data_without_price Scenario.numeric_of_object
              Scenario.datetime_of_object Scenario.priceless_df Hno)
    as (_ & Hdrop & _).
  destruct (before_drop Scenario.numeric_of_object Scenario.datetime_of_object
              Scenario.priceless_df) as [mid|e] eqn:Hmid.
  - exact (proj2 (Hdrop mid eq_refl)).
  - vm_compute in Hmid. discriminate Hmid.
Defined.

Lemma town_filter_selects_witness :
  ∃ filtered_df,
    town_filter [CStr "BEDOK"] Scenario.cleaned_df = Ok filtered_df
    ∧ get "town" <$> rows filtered_df = [CStr "BEDOK"].
Proof.
  destruct (town_filter_selects [CStr "BEDOK"] Scenario.cleaned_df)
    as (filtered_df & Hf & _ & Hsel).
  { intros _. vm_compute. reflexivity. }
  exists filtered_df. split; [exact Hf|].
  destruct (Hsel ltac:(discriminate)) as (_ & -> & _).
  vm_compute. reflexivity.
Defined.

Lemma head_first_rows_witness :
  (1 ≤ length (rows Scenario.cleaned_df))%nat
  ∧ length (rows (head 1 Scenario.cleaned_df)) = 1%nat
  ∧ rows (head 1 Scenario.cleaned_df) !! 0%nat = rows Scenario.cleaned_df !! 0%nat.
Proof.
  assert (1 ≤ length (rows Scenario.cleaned_df))%nat as Hk by (vm_compute; lia).
  destruct (head_first_rows Scenario.cleaned_df 1 Hk) as (Hlen & Hrows & _).
  split; [exact Hk|]. split; [exact Hlen|]. apply Hrows. lia.
Defined.




(** * Further properties of the code *)

(** ** The fetcher *)

Lemma first_seen_elem (labels : list string) c : c ∈ first_seen labels ↔ c ∈ labels.
Proof. unfold first_seen. by rewrite elem_of_reverse, elem_of_remove_dups, elem_of_reverse. Qed.

Lemma first_seen_NoDup (labels : list string) : NoDup (first_seen labels).
Proof. unfold first_seen. rewrite reverse_Permutation. apply NoDup_remove_dups. Qed.

Lemma lookup_keyed_cells (f : string → cell) (cols : list string) key :
  (list_to_map ((λ c, (c, f c)) <$> cols) : gmap string cell) !! key
  = if bool_decide (key ∈ cols) then Some (f key) else None.
Proof.
  induction cols as [|c cols IH].
  - by rewrite bool_decide_eq_false_2 by apply not_elem_of_nil.
  - rewrite fmap_cons, list_to_map_cons. destruct (decide (c = key)) as [->|Hne].
    + rewrite lookup_insert_eq, bool_decide_eq_true_2; [done | apply elem_of_cons; auto].
    + rewrite lookup_insert_ne, IH by done.
      assert (bool_decide (key ∈ cols) = bool_decide (key ∈ c :: cols)) as ->; [|done].
      apply bool_decide_ext. rewrite elem_of_cons. split; [auto|].
      by intros [->|].
Qed.

(** Reading a key from the cells of a record is reading the first member of
    that name from the list of members they were made from. *)
Lemma lookup_record_members (ms : list (string * json)) (rec : list (string * cell)) key :
  Forall2 (λ kv p, (c ← scalar_cell kv.2; Some (kv.1, c)) = Some p) ms rec →
  (list_to_map rec : gmap string cell) !! key
  = match list_find (λ kv, kv.1 = key) ms with
    | Some (_, (_, v)) => scalar_cell v
    | None => None
    end
  ∧ (is_Some ((list_to_map rec : gmap string cell) !! key)
     ↔ is_Some (list_find (λ kv, kv.1 = key) ms)).
Proof.
  induction 1 as [|[k v] [k' c] ms rec Hkv _ [IH1 IH2]]; [split; [done|]|].
  { rewrite list_to_map_nil, lookup_empty. cbn. split; intros []; done. }
  cbn in Hkv. destruct (scalar_cell v) as [c0|] eqn:Hv; [|done].
  cbn in Hkv. injection Hkv as <- <-.
  rewrite list_to_map_cons. cbn [list_find]. cbn [fst]. case_decide as Hk.
  - subst. rewrite lookup_insert_eq. split; [done|]. split; eauto.
  - rewrite lookup_insert_ne by done. split.
    + rewrite IH1. by destruct (list_find (λ kv, kv.1 = key) ms) as [[? [? ?]]|].
    + rewrite IH2. rewrite fmap_is_Some. done.
Qed.

Lemma record_of_lookup item rec key :
  record_of item = Some rec →
  get key (list_to_map (reverse rec) : gmap string cell) = member_cell key item
  ∧ (key ∈ rec.*1 ↔ ∃ v, subscript key item = Ok v).
Proof.
  destruct item as [| | | | |ms]; try done. cbn [record_of]. intros Hrec.
  apply mapM_Some, Forall2_reverse in Hrec.
  destruct (lookup_record_members _ _ key Hrec) as [Hlook Hsome].
  unfold get, member_cell. cbn [subscript]. split.
  - rewrite Hlook.
    by destruct (list_find (λ kv, kv.1 = key) (reverse ms)) as [[? [? ?]]|].
  - assert (key ∈ rec.*1 ↔ is_Some ((list_to_map (reverse rec) : gmap string cell) !! key))
      as ->.
    { rewrite <- not_eq_None_Some, <- not_elem_of_list_to_map, fmap_reverse, elem_of_reverse.
      split; [auto|]. intros H. by destruct (decide (key ∈ rec.*1)). }
    rewrite Hsome.
    destruct (list_find (λ kv, kv.1 = key) (reverse ms)) as [[? [? v]]|].
    + split; eauto.
    + split; [by intros [] | by intros []].
Qed.

Lemma elem_of_keys (recs : list (list (string * cell))) key :
  key ∈ concat (map (map fst) recs) ↔ ∃ rec, rec ∈ recs ∧ key ∈ rec.*1.
Proof.
  rewrite list_elem_of_In, in_concat. split.
  - intros (ks & Hks & Hkey). apply in_map_iff in Hks as (rec & <- & Hrec).
    exists rec. split; by apply list_elem_of_In.
  - intros (rec & Hrec & Hkey). exists (rec.*1). split; [|by apply list_elem_of_In].
    apply in_map_iff. exists rec. split; [done | by apply list_elem_of_In].
Qed.

Lemma columns_of_records recs key :
  key ∈ columns (DataFrame_of_records recs) ↔ ∃ rec, rec ∈ recs ∧ key ∈ rec.*1.
Proof.
  unfold DataFrame_of_records; cbn [columns].
  by rewrite first_seen_elem, elem_of_keys.
Qed.

Lemma row_of_record recs i rec key :
  recs !! i = Some rec →
  ∃ row, rows (DataFrame_of_records recs) !! i = Some row
         ∧ get key row = get key (list_to_map (reverse rec) : gmap string cell).
Proof.
  intros Hi. unfold DataFrame_of_records; cbn [rows].
  eexists. split.
  { change (map ?f ?l) with (f <$> l). by rewrite list_lookup_fmap, Hi. }
  cbn beta zeta. unfold get at 1. rewrite lookup_keyed_cells.
  case_bool_decide as Hin; [done|]. cbn [default].
  rewrite first_seen_elem, elem_of_keys in Hin.
  unfold get. destruct (_ !! key) eqn:Hlook; [|done]. exfalso. apply Hin.
  exists rec. split; [by eapply list_elem_of_lookup_2|].
  apply elem_of_list_to_map_2 in Hlook.
  rewrite elem_of_reverse in Hlook. apply list_elem_of_fmap. by exists (key, c).
Qed.

Section FetcherOutcomes.

Variable DataFrame_irregular : json → result DataFrame.

Local Abbreviation load_all_data := (load_all_data DataFrame_irregular).
Local Abbreviation DataFrame_new := (DataFrame_new DataFrame_irregular).

(** X1. Whatever [load_all_data] returns is of one of two kinds: no frame
    together with exactly one error message, which happens only for a
    transport failure, a 4xx/5xx status or an undecodable body; or a frame
    together with no message, and then it is the frame built from
    [result.records] of a decoded body. *)
Theorem load_outcome x errors full_df :
  load_all_data x = Ok (errors, full_df) →
  match full_df with
  | None =>
      (∃ msg, errors = [msg])
      ∧ match x with
        | RequestFailed _ => True
        | Response status body => is_error_status status = true ∨ body = None
        end
  | Some df =>
      errors = []
      ∧ ∃ status data records,
          x = Response status (Some data)
          ∧ is_error_status status = false
          ∧ subscript "result" data ≫= subscript "records" = Ok records
          ∧ DataFrame_new records = Ok df
  end.
Proof.
  unfold load_all_data. destruct x as [text|status body].
  { intros [= <- <-]. eauto. }
  destruct (is_error_status status) eqn:Hs.
  { intros [= <- <-]. eauto. }
  destruct body as [data|]; [|intros [= <- <-]; eauto].
  intros H. apply bind_Ok in H as (inner & Hi & H).
  apply bind_Ok in H as (records & Hr & H).
  apply bind_Ok in H as (df & Hdf & [= <- <-]).
  split; [done|]. exists status, data, records. split_and!; try done.
  rewrite Hi. exact Hr.
Qed.

(** X2. A response that is not an error status and whose body carries a list
    of records under [result.records] is loaded in full: no message, one row
    per record in the order of the list, every cell equal to the record's
    member of that name (missing when the record lacks it), and the columns
    are exactly the names that occur in some record, without repetition. *)
Theorem load_returns_every_record status data items :
  is_error_status status = false →
  subscript "result" data ≫= subscript "records" = Ok (JArr items) →
  Forall (λ item, is_Some (record_of item)) items →
  ∃ df,
    load_all_data (Response status (Some data)) = Ok ([], Some df)
    ∧ length (rows df) = length items
    ∧ (∀ i item, items !! i = Some item →
         ∃ row, rows df !! i = Some row
                ∧ ∀ key, get key row = member_cell key item)
    ∧ NoDup (columns df)
    ∧ (∀ key, key ∈ columns df ↔
              ∃ item v, item ∈ items ∧ subscript key item = Ok v).
Proof.
  intros Hs Hsub Hall.
  destruct (mapM_is_Some_2 record_of items) as [recs Hrecs].
  { eapply Forall_impl; [exact Hall | done]. }
  exists (DataFrame_of_records recs).
  pose proof (proj1 (mapM_Some _ _ _) Hrecs) as Hitems.
  split_and!.
  - unfold load_all_data. rewrite Hs.
    apply bind_Ok in Hsub as (inner & Hi & Hr).
    rewrite Hi. cbn [mbind result_bind]. rewrite Hr. cbn [mbind result_bind].
    unfold DataFrame_new. by rewrite Hrecs.
  - unfold DataFrame_of_records; cbn [rows]. rewrite length_map.
    symmetry. by eapply Forall2_length.
  - intros i item Hi.
    destruct (Forall2_lookup_l _ _ _ _ _ Hitems Hi) as (rec & Hrec & Hof).
    destruct (row_of_record recs i rec "" Hrec) as (row & Hrow & _).
    exists row. split; [done|]. intros key.
    destruct (row_of_record recs i rec key Hrec) as (row' & Hrow' & Hget).
    assert (row' = row) as -> by congruence.
    rewrite Hget. by apply record_of_lookup.
  - apply first_seen_NoDup.
  - intros key. rewrite columns_of_records. split.
    + intros (rec & Hrec & Hkey). apply list_elem_of_lookup in Hrec as [i Hi].
      destruct (Forall2_lookup_r _ _ _ _ _ Hitems Hi) as (item & Hitem & Hof).
      apply (record_of_lookup _ _ key) in Hof as [_ Hmem].
      destruct (proj1 Hmem Hkey) as [v Hv]. exists item, v.
      split; [by eapply list_elem_of_lookup_2 | done].
    + intros (item & v & Hitem & Hv).
      destruct (proj1 (list_elem_of_lookup _ _) Hitem) as [i Hi].
      destruct (Forall2_lookup_l _ _ _ _ _ Hitems Hi) as (rec & Hrec & Hof).
      exists rec. split; [by eapply list_elem_of_lookup_2|].
      apply (record_of_lookup _ _ key) in Hof as [_ Hmem]. apply Hmem. eauto.
Qed.

End FetcherOutcomes.

(** ** The cleaner *)

Lemma traverse_all_Ok {A B} (f : A → result B) (l : list A) :
  Forall (λ a, ∃ b, f a = Ok b) l → ∃ bs, traverse f l = Ok bs.
Proof.
  induction 1 as [|a l [b Hb] _ [bs Hbs]]; [by eexists|].
  exists (b :: bs). cbn [traverse]. by rewrite Hb, Hbs.
Qed.

Lemma traverse_Raise {A B} (f : A → result B) (l : list A) e :
  traverse f l = Raise e → Exists (λ a, f a = Raise e) l.
Proof.
  induction l as [|a l IH]; [done|]. cbn [traverse].
  destruct (f a) as [b|e'] eqn:Ha; cbn [mbind result_bind].
  - destruct (traverse f l) as [bs|e'']; [done|]. intros [= <-].
    apply Exists_cons_tl. by apply IH.
  - intros [= <-]. by apply Exists_cons_hd.
Qed.

Lemma filter_Forall2 {A B} (R : A → B → Prop) (p : A → bool) (q : B → bool) l k :
  Forall2 R l k → (∀ a b, R a b → p a = q b) →
  Forall2 R (List.filter p l) (List.filter q k).
Proof.
  intros H Hpq. induction H as [|a b l k Hab _ IH]; cbn [List.filter]; [constructor|].
  rewrite (Hpq a b Hab). destruct (q b); [by constructor | done].
Qed.

Section CleanerOutcomes.

Variable numeric_of_object : cell → option Q.
Variable datetime_of_object : cell → option Timestamp.

Local Abbreviation to_numeric_cell := (to_numeric_cell numeric_of_object).
Local Abbreviation to_datetime_cell := (to_datetime_cell datetime_of_object).
Local Abbreviation clean_data := (clean_data numeric_of_object datetime_of_object).
Local Abbreviation clean_row := (clean_row numeric_of_object datetime_of_object).
Local Abbreviation month_unparseable := (month_unparseable datetime_of_object).
Local Abbreviation price_coercible := (price_coercible numeric_of_object).

Lemma to_datetime_cell_raises c e : to_datetime_cell c = Raise e → e = DateParseError.
Proof.
  unfold to_datetime_cell.
  destruct c; cbn; try destruct (datetime_of_object _); congruence.
Qed.

(** [clean_row] fails exactly on the month cell of the input row. *)
Lemma clean_row_Raise cols r e :
  clean_row cols r = Raise e ↔
  "month" ∈ cols ∧ to_datetime_cell (get "month" r) = Raise e.
Proof.
  unfold clean_row, date_row, cast_row.
  destruct (decide ("month" ∈ cols)) as [Hm|Hm];
    [rewrite (bool_decide_eq_true_2 _ Hm) | rewrite (bool_decide_eq_false_2 _ Hm)].
  - destruct (bool_decide ("resale_price" ∈ cols)),
             (bool_decide ("floor_area_sqm" ∈ cols));
      rewrite ?get_insert_ne by done;
      (destruct (to_datetime_cell (get "month" r)) as [m|e'];
       cbn [mbind result_bind];
       [split; [done | by intros [_ ?]]
       |split; [intros [= ->]; by split | by intros [_ [= ->]]]]).
  - split; [done | by intros [? _]].
Qed.

(** X3. The outcome of [clean_data] on a frame is decided by two tests, in
    this order: a [month] column with a cell that does not parse raises the
    date error, also when [resale_price] is absent; otherwise an absent
    [resale_price] column raises [KeyError]; otherwise a frame is returned.
    No content of the numeric columns can make it raise. *)
Theorem clean_data_outcome df :
  (month_unparseable df → clean_data (Some df) = Raise DateParseError)
  ∧ (¬ month_unparseable df → has_col "resale_price" df = false →
       clean_data (Some df) = Raise (KeyError ["resale_price"]))
  ∧ (¬ month_unparseable df → has_col "resale_price" df = true →
       ∃ out, clean_data (Some df) = Ok (Some out)).
Proof.
  rewrite clean_data_rowwise.
  assert (¬ month_unparseable df →
          ∃ mid, traverse (clean_row (columns df)) (rows df) = Ok mid) as Hok.
  { intros Hno. apply traverse_all_Ok, Forall_forall. intros r Hr.
    destruct (clean_row (columns df) r) as [r'|e] eqn:Hrow; [by eexists|].
    exfalso. apply Hno. apply clean_row_Raise in Hrow as [Hm Hrow].
    pose proof (to_datetime_cell_raises _ _ Hrow) as ->.
    split; [by apply has_col_true|]. apply Exists_exists. eauto. }
  split_and!.
  - intros [Hm Hex]. apply Exists_exists in Hex as (r & Hr & Hrow).
    destruct (traverse (clean_row (columns df)) (rows df)) as [mid|e] eqn:Ht.
    + apply traverse_Ok_Forall2 in Ht.
      apply list_elem_of_lookup in Hr as [i Hi].
      destruct (Forall2_lookup_l _ _ _ _ _ Ht Hi) as (r' & _ & Hr').
      assert (clean_row (columns df) r = Raise DateParseError) as Hbad
        by (apply clean_row_Raise; split; [by apply has_col_true | done]).
      congruence.
    + cbn [mbind result_bind]. f_equal.
      by eapply traverse_clean_row_raises.
  - intros Hno Hprice. destruct (Hok Hno) as [mid ->]. cbn [mbind result_bind].
    by rewrite Hprice.
  - intros Hno Hprice. destruct (Hok Hno) as [mid ->]. cbn [mbind result_bind].
    rewrite Hprice. by eexists.
Qed.

(** X4. In a cleaned frame every cell the cleaner writes has its target
    type: [floor_area_sqm], when it is a column, is a number or missing;
    [month], when it is a column, is a timestamp whose calendar year is the
    row's [year], or is missing together with [year]. *)
Theorem cleaned_cells_typed df out :
  clean_data (Some df) = Ok (Some out) →
  (has_col "floor_area_sqm" df = true →
     Forall (λ r, (∃ q, get "floor_area_sqm" r = CNum q)
                  ∨ get "floor_area_sqm" r = CNA) (rows out))
  ∧ (has_col "month" df = true →
       Forall (λ r, (∃ t, get "month" r = CDate t
                          ∧ get "year" r = CNum (inject_Z (ts_year t)))
                    ∨ (get "month" r = CNA ∧ get "year" r = CNA)) (rows out)).
Proof.
  intros (mid & Hmid & _ & ->)%clean_data_Ok. cbn [rows].
  apply traverse_Ok_Forall2 in Hmid.
  assert (∀ P : gmap string cell → Prop,
            (∀ r m, clean_row (columns df) r = Ok m → P m) →
            Forall P (List.filter price_present mid)) as Hlift.
  { intros P HP. apply Forall_forall. intros m Hm.
    apply list_elem_of_In, filter_In in Hm as [Hm _]. apply list_elem_of_In in Hm.
    apply list_elem_of_lookup in Hm as [i Hi].
    destruct (Forall2_lookup_r _ _ _ _ _ Hmid Hi) as (r & _ & Hr). eauto. }
  split; intros Hcol%has_col_true; apply Hlift; intros r m Hm;
    apply clean_row_lookup in Hm as (Hnum & Hmonth & _).
  - specialize (Hnum "floor_area_sqm"). rewrite bool_decide_eq_true_2 in Hnum by done.
    rewrite (get_lookup _ _ _ (Hnum ltac:(apply cols_to_numeric_elem; auto))).
    apply to_numeric_cell_cases.
  - rewrite bool_decide_eq_true_2 in Hmonth by done.
    destruct Hmonth as (c & Hc & Hmo & Hy).
    rewrite (get_lookup _ _ _ Hmo), (get_lookup _ _ _ Hy).
    unfold to_datetime_cell in Hc.
    destruct (get "month" r); cbn in Hc; try destruct (datetime_of_object _);
      injection Hc as <- || discriminate Hc; cbn; eauto.
Qed.

(** X5. Cleaning keeps the column labels in their order; [year] is appended
    as the last column when a [month] column is present and there was no
    [year] column, and nothing else is ever added or removed. *)
Theorem cleaned_columns df out :
  clean_data (Some df) = Ok (Some out) →
  columns out
  = if has_col "month" df && negb (has_col "year" df)
    then (columns df ++ ["year"])%list
    else columns df.
Proof. by intros (mid & _ & _ & ->)%clean_data_Ok. Qed.

(** X6. The cleaned frame has exactly one row for each input row whose
    [resale_price] coerces to a number, in the order of the input; such a
    row carries the coerced price, and its passthrough cells are those of
    the input row. *)
Theorem cleaned_rows_are_priced_inputs df out :
  clean_data (Some df) = Ok (Some out) →
  Forall2 (λ r r', get "resale_price" r' = to_numeric_cell (get "resale_price" r)
                   ∧ same_passthrough r r')
    (List.filter price_coercible (rows df)) (rows out)
  ∧ length (rows out) = length (List.filter price_coercible (rows df)).
Proof.
  intros (mid & Hmid & Hprice & ->)%clean_data_Ok. cbn [rows].
  apply traverse_Ok_Forall2 in Hmid.
  assert (Forall2 (λ r r', get "resale_price" r' = to_numeric_cell (get "resale_price" r)
                           ∧ same_passthrough r r') (rows df) mid) as Hrows.
  { eapply Forall2_impl; [exact Hmid|]. intros r m Hm.
    apply clean_row_lookup in Hm as (Hnum & _ & Hpass). split; [|done].
    specialize (Hnum "resale_price"). rewrite bool_decide_eq_true_2 in Hnum by done.
    by rewrite (get_lookup _ _ _ (Hnum ltac:(apply cols_to_numeric_elem; auto))). }
  assert (Forall2 (λ r r', get "resale_price" r' = to_numeric_cell (get "resale_price" r)
                           ∧ same_passthrough r r')
            (List.filter price_coercible (rows df)) (List.filter price_present mid))
    as Hkept.
  { apply filter_Forall2; [done|]. intros r m [Hp _].
    unfold price_coercible, price_present. by rewrite Hp. }
  split; [done|]. symmetry. by eapply Forall2_length.
Qed.

End CleanerOutcomes.

(** ** The filter pipeline *)

Lemma filter_twice {A} (p q : A → bool) (l : list A) :
  List.filter p (List.filter q l) = List.filter (λ a, q a && p a) l.
Proof.
  induction l as [|a l IH]; [done|]. cbn [List.filter].
  destruct (q a); cbn [andb List.filter]; [|done]. by rewrite IH.
Qed.

Lemma filter_true {A} (l : list A) : List.filter (λ _, true) l = l.
Proof. induction l as [|a l IH]; [done|]. cbn [List.filter]. by rewrite IH. Qed.

Lemma Forall_sublist_of {A} (P : A → Prop) (l k : list A) :
  sublist l k → Forall P k → Forall P l.
Proof.
  intros Hsub Hk. apply Forall_forall. intros a Ha.
  eapply (proj1 (Forall_forall _ _) Hk). by eapply elem_of_sublist.
Qed.

Lemma Qmin2_le_l a x : (Qmin2 a x <= a)%Q.
Proof.
  unfold Qmin2. destruct (Qle_bool a x) eqn:H; [apply Qle_refl|].
  apply Qlt_le_weak, Qnot_le_lt. intros Hle. apply Qle_bool_iff in Hle. congruence.
Qed.

Lemma Qmax2_ge_l a x : (a <= Qmax2 a x)%Q.
Proof.
  unfold Qmax2. destruct (Qle_bool a x) eqn:H; [by apply Qle_bool_iff | apply Qle_refl].
Qed.

Lemma fold_min_le_init qs : ∀ a, (fold_left Qmin2 qs a <= a)%Q.
Proof.
  induction qs as [|x qs IH]; intros a; cbn [fold_left]; [apply Qle_refl|].
  eapply Qle_trans; [apply IH | apply Qmin2_le_l].
Qed.

Lemma fold_max_ge_init qs : ∀ a, (a <= fold_left Qmax2 qs a)%Q.
Proof.
  induction qs as [|x qs IH]; intros a; cbn [fold_left]; [apply Qle_refl|].
  eapply Qle_trans; [apply Qmax2_ge_l | apply IH].
Qed.

Lemma fold_min_le_elem qs : ∀ a q, q ∈ a :: qs → (fold_left Qmin2 qs a <= q)%Q.
Proof.
  induction qs as [|x qs IH]; intros a q Hq; cbn [fold_left].
  - apply list_elem_of_singleton in Hq. subst q. apply Qle_refl.
  - apply elem_of_cons in Hq as [Hq|Hq].
    + subst q. eapply Qle_trans; [apply fold_min_le_init | apply Qmin2_le_l].
    + apply elem_of_cons in Hq as [Hq|Hq].
      * subst q. eapply Qle_trans; [apply fold_min_le_init | apply Qmin2_le_r].
      * apply IH. by apply list_elem_of_further.
Qed.

Lemma fold_max_ge_elem qs : ∀ a q, q ∈ a :: qs → (q <= fold_left Qmax2 qs a)%Q.
Proof.
  induction qs as [|x qs IH]; intros a q Hq; cbn [fold_left].
  - apply list_elem_of_singleton in Hq. subst q. apply Qle_refl.
  - apply elem_of_cons in Hq as [Hq|Hq].
    + subst q. eapply Qle_trans; [apply Qmax2_ge_l | apply fold_max_ge_init].
    + apply elem_of_cons in Hq as [Hq|Hq].
      * subst q. eapply Qle_trans; [apply Qmax2_ge_r | apply fold_max_ge_init].
      * apply IH. by apply list_elem_of_further.
Qed.

Lemma numeric_values_elem s qs q :
  numeric_values s = Ok qs → CNum q ∈ s → q ∈ qs.
Proof.
  revert qs. induction s as [|c s IH]; intros qs Hs Hq; [by apply elem_of_nil in Hq|].
  destruct c as [t|p|t|]; try done; cbn [numeric_values] in Hs.
  - apply bind_Ok in Hs as (qs' & Hqs' & [= <-]).
    apply elem_of_cons in Hq as [[= ->]|Hq]; [apply list_elem_of_here|].
    apply list_elem_of_further. by apply IH.
  - apply elem_of_cons in Hq as [|Hq]; [done|]. by apply IH.
Qed.

(** The bounds of the [year] column enclose each of its integer years. *)
Lemma year_bounds_enclose df lo hi r (y : Z) :
  year_bounds df = Ok (lo, hi) → r ∈ rows df → get "year" r = CNum (inject_Z y) →
  (lo ≤ y ≤ hi)%Z.
Proof.
  unfold year_bounds, getitem, series_min, series_max. intros H Hr Hy.
  destruct (has_col "year" df); [|done]. cbn [mbind result_bind] in H.
  assert (CNum (inject_Z y) ∈ column "year" df) as Hin.
  { unfold column. apply list_elem_of_fmap. exists r. by rewrite Hy. }
  destruct (numeric_values (column "year" df)) as [qs|e] eqn:Hqs; [|done].
  pose proof (numeric_values_elem _ _ _ Hqs Hin) as Hq.
  destruct qs as [|q0 qs]; [by apply elem_of_nil in Hq|].
  cbn in H. injection H as <- <-.
  pose proof (trunc_mono _ _ (fold_min_le_elem _ _ _ Hq)) as Hlo.
  pose proof (trunc_mono _ _ (fold_max_ge_elem _ _ _ Hq)) as Hhi.
  cbn [inject_Z Qnum Qden] in Hlo, Hhi. rewrite Z.quot_1_r in Hlo, Hhi. lia.
Qed.

(** X7. The view is the sample filtered once: of the first [n] cleaned rows
    it keeps, in order, those whose town is selected (all of them for an
    empty selection) and, when the year slider is shown, whose year lies in
    the chosen range; it has the cleaned frame's columns and at most [n]
    rows. *)
Theorem view_is_filtered_sample clean_df n towns year_range ctl view :
  view_of clean_df n towns year_range = Ok (ctl, view) →
  rows view = List.filter (in_view towns ctl year_range) (take n (rows clean_df))
  ∧ columns view = columns clean_df
  ∧ (length (rows view) ≤ n)%nat.
Proof.
  intros (town & all_towns & filtered_df & _ & _ & Hf & Hy)%view_of_Ok.
  assert (rows filtered_df
          = List.filter (λ r, match towns with
                              | [] => true
                              | _ => isin towns (get "town" r)
                              end) (take n (rows clean_df))
          ∧ columns filtered_df = columns clean_df) as [Hfr Hfc].
  { unfold town_filter in Hf. destruct towns as [|t towns].
    - injection Hf as <-. by rewrite filter_true.
    - destruct (getitem "town" (head n clean_df)); [|done]. by injection Hf as <-. }
  assert (rows view = List.filter (in_view towns ctl year_range) (take n (rows clean_df))
          ∧ columns view = columns clean_df) as [Hvr Hvc].
  { rewrite year_filter_bounds in Hy. unfold in_view.
    destruct (has_col "year" clean_df).
    - destruct (year_bounds filtered_df) as [[lo hi]|e]; [|done].
      cbn [mbind result_bind] in Hy.
      destruct (lo <? hi)%Z; injection Hy as <- <-; cbn [is_slider select_rows rows columns].
      + by rewrite Hfr, filter_twice.
      + rewrite Hfr. split; [|done]. apply List.filter_ext. intros r.
        by rewrite andb_true_r.
    - injection Hy as <- <-. cbn [is_slider]. rewrite Hfr. split; [|done].
      apply List.filter_ext. intros r. by rewrite andb_true_r. }
  split_and!; try done.
  rewrite Hvr. etrans; [apply filter_length_le|]. rewrite length_take. lia.
Qed.

(** X8. When the year slider is shown, every row of the view has a year,
    and that year lies in the chosen range, both ends included; the slider
    is shown only over a span of at least two years. *)
Theorem view_years_in_range clean_df n towns year_range lo hi view :
  view_of clean_df n towns year_range = Ok (YearSlider lo hi, view) →
  (lo < hi)%Z
  ∧ Forall (λ r, ∃ y, get "year" r = CNum y
                      ∧ (inject_Z year_range.1 <= y)%Q
                      ∧ (y <= inject_Z year_range.2)%Q) (rows view).
Proof.
  intros (town & all_towns & filtered_df & _ & _ & _ & Hy)%view_of_Ok.
  rewrite year_filter_bounds in Hy.
  destruct (has_col "year" clean_df); [|done].
  destruct (year_bounds filtered_df) as [[lo' hi']|e]; [|done].
  cbn [mbind result_bind] in Hy.
  destruct (Z.ltb_spec lo' hi'); [|done]. injection Hy as <- <- <-.
  split; [done|]. cbn [select_rows rows].
  eapply Forall_impl; [apply filter_Forall|]. intros r Hr. unfold year_between in Hr.
  destruct (get "year" r) as [|y| |]; try done.
  apply andb_true_iff in Hr as [H1%Qle_bool_iff H2%Qle_bool_iff]. eauto.
Qed.

(** X9. Left at its default, the full span shown, the year slider removes
    exactly the rows without a year (those whose month was missing): every
    row of the town-filtered sample with a derived year is kept. *)
Theorem default_year_range_drops_missing clean_df n towns lo hi view :
  Forall derived_year (rows clean_df) →
  view_of clean_df n towns (lo, hi) = Ok (YearSlider lo hi, view) →
  ∃ filtered_df,
    town_filter towns (head n clean_df) = Ok filtered_df
    ∧ rows view = List.filter (λ r, notna (get "year" r)) (rows filtered_df).
Proof.
  intros Hderived (town & all_towns & filtered_df & _ & _ & Hf & Hy)%view_of_Ok.
  exists filtered_df. split; [done|].
  assert (Forall derived_year (rows filtered_df)) as Hyears.
  { eapply Forall_sublist_of; [|exact Hderived].
    transitivity (rows (head n clean_df)); [by apply town_filter_Ok in Hf as [_ ?]|].
    apply sublist_take. }
  rewrite year_filter_bounds in Hy.
  destruct (has_col "year" clean_df); [|done].
  destruct (year_bounds filtered_df) as [[lo' hi']|e] eqn:Hb; [|done].
  cbn [mbind result_bind] in Hy.
  destruct (lo' <? hi')%Z; [|done]. injection Hy as -> -> <-.
  cbn [select_rows rows].
  assert (∀ r, r ∈ rows filtered_df →
               year_between (lo, hi) r = notna (get "year" r)) as Hsame.
  { intros r Hr. pose proof (proj1 (Forall_forall _ _) Hyears r Hr) as [Hna|[y Hyr]].
    - unfold year_between. by rewrite Hna.
    - destruct (year_bounds_enclose _ _ _ _ _ Hb Hr Hyr) as [Hlo Hhi].
      unfold year_between. rewrite Hyr. cbn [fst snd notna].
      apply andb_true_iff. split; apply Qle_bool_iff; by rewrite <- Zle_Qle. }
  revert Hsame. generalize (rows filtered_df). clear.
  induction l as [|r l IH]; intros Hsame; [done|]. cbn [List.filter].
  rewrite (Hsame r) by apply list_elem_of_here.
  rewrite IH; [done|]. intros r' Hr'. apply Hsame. by apply list_elem_of_further.
Qed.

(** ** The town options *)

Lemma cell_eqb_refl c : cell_eqb c c = true.
Proof.
  destruct c; cbn; [apply String.eqb_refl | apply Qeq_bool_refl
                   | by apply bool_decide_eq_true | done].
Qed.

(** Away from numbers, [cell_eqb] is equality. *)
Lemma cell_eqb_eq c d : (∀ q, d ≠ CNum q) → cell_eqb c d = true → c = d.
Proof.
  intros Hd. destruct c, d; cbn; try done.
  - by intros ->%String.eqb_eq.
  - by destruct (Hd q0).
  - by intros ->%bool_decide_eq_true.
Qed.

Lemma unique_sub s c : c ∈ unique s → c ∈ s.
Proof.
  induction s as [|d s IH]; [done|]. cbn [unique].
  intros [->|Hc]%elem_of_cons; [apply list_elem_of_here|].
  apply list_elem_of_further, IH.
  apply list_elem_of_In, filter_In in Hc as [Hc _]. by apply list_elem_of_In.
Qed.

Lemma unique_elem s c : (∀ q, c ≠ CNum q) → c ∈ s → c ∈ unique s.
Proof.
  intros Hc. induction s as [|d s IH]; [done|]. cbn [unique].
  intros [->|Hin]%elem_of_cons; [apply list_elem_of_here|].
  destruct (cell_eqb d c) eqn:Heq.
  - apply cell_eqb_eq in Heq as ->; [apply list_elem_of_here | done].
  - apply list_elem_of_further, list_elem_of_In, filter_In.
    split; [by apply list_elem_of_In, IH | by rewrite Heq].
Qed.

Lemma unique_NoDup s : Forall (λ c, ∀ q, c ≠ CNum q) s → NoDup (unique s).
Proof.
  induction 1 as [|d s Hd _ IH]; cbn [unique]; [constructor|].
  constructor.
  - intros Hin. apply list_elem_of_In, filter_In in Hin as [_ Hin].
    by rewrite cell_eqb_refl in Hin.
  - by apply NoDup_ListNoDup, List.NoDup_filter, NoDup_ListNoDup.
Qed.

Lemma insert_sorted_Permutation t l : insert_sorted t l ≡ₚ t :: l.
Proof.
  induction l as [|u l IH]; [done|]. cbn [insert_sorted].
  destruct (String.leb t u); [done|]. rewrite IH. apply Permutation_swap.
Qed.

Lemma sort_strings_Permutation l : sort_strings l ≡ₚ l.
Proof.
  induction l as [|t l IH]; [done|]. cbn [sort_strings foldr].
  rewrite insert_sorted_Permutation. by constructor.
Qed.

Lemma insert_sorted_Sorted t l :
  Sorted (λ a b, String.leb a b = true) l →
  Sorted (λ a b, String.leb a b = true) (insert_sorted t l).
Proof.
  induction 1 as [|u l Hl IH Hhd]; cbn [insert_sorted]; [by repeat constructor|].
  destruct (String.leb t u) eqn:Htu.
  - constructor; [by constructor | by constructor].
  - constructor; [done|].
    assert (String.leb u t = true) as Hut
      by (destruct (String.leb_total t u); congruence).
    destruct Hhd as [|v l Huv]; cbn [insert_sorted]; [by constructor|].
    destruct (String.leb t v); by constructor.
Qed.

Lemma sort_strings_Sorted l : Sorted (λ a b, String.leb a b = true) (sort_strings l).
Proof.
  induction l as [|t l IH]; [constructor|]. by apply insert_sorted_Sorted.
Qed.

Lemma strings_as_cells values :
  Forall (λ c, ∃ t, c = CStr t) values → CStr <$> omap as_str values = values.
Proof.
  induction 1 as [|c values [t ->] _ IH]; [done|].
  cbn. by rewrite IH.
Qed.

Lemma forallb_strings values :
  forallb (λ c, bool_decide (is_Some (as_str c))) values = true
  ↔ Forall (λ c, ∃ t, c = CStr t) values.
Proof.
  rewrite forallb_forall, Forall_forall. split; intros H c Hc.
  - specialize (H c ltac:(by apply list_elem_of_In)).
    apply bool_decide_eq_true in H as [t Ht]. destruct c; try done. eauto.
  - apply list_elem_of_In in Hc. destruct (H c Hc) as [t ->].
    by apply bool_decide_eq_true.
Qed.

(** On strings, [sorted] is the sorting of the strings. *)
Lemma sorted_strings values :
  Forall (λ c, ∃ t, c = CStr t) values →
  sorted values = Ok (CStr <$> sort_strings (omap as_str values)).
Proof.
  intros H. unfold sorted.
  destruct values as [|c [|d values]].
  - done.
  - inversion H as [|? ? [t ->] _]; subst. done.
  - by rewrite (proj2 (forallb_strings _) H).
Qed.

(** What [sorted] returns is a rearrangement of its argument. *)
Lemma sorted_Permutation values opts : sorted values = Ok opts → opts ≡ₚ values.
Proof.
  unfold sorted. destruct values as [|c [|d values]]; try by intros [= <-].
  generalize (c :: d :: values). intros vs.
  destruct (forallb _ vs) eqn:Hall.
  - intros H. assert (opts = CStr <$> sort_strings (omap as_str vs)) as ->
      by congruence.
    apply forallb_strings in Hall.
    rewrite sort_strings_Permutation. by rewrite (strings_as_cells _ Hall).
  - by destruct (existsb _ _).
Qed.

#[local] Instance CStr_inj : Inj (=) (=) CStr.
Proof. by intros s t [= ->]. Qed.

(** X10. For a sample whose towns are all strings, the options of the town
    selector are the distinct towns of the sample in ascending order: the
    list is sorted, has no repetition, and holds exactly the towns that
    occur in the column. *)
Theorem town_options_sorted (town : list cell) :
  Forall (λ c, ∃ t, c = CStr t) town →
  ∃ names,
    sorted (unique town) = Ok (CStr <$> names)
    ∧ Sorted (λ a b, String.leb a b = true) names
    ∧ NoDup names
    ∧ ∀ t, t ∈ names ↔ CStr t ∈ town.
Proof.
  intros Hstr.
  assert (Forall (λ c, ∃ t, c = CStr t) (unique town)) as Hu.
  { apply Forall_forall. intros c Hc%unique_sub.
    exact (proj1 (Forall_forall _ _) Hstr c Hc). }
  exists (sort_strings (omap as_str (unique town))). split_and!.
  - by apply sorted_strings.
  - apply sort_strings_Sorted.
  - rewrite sort_strings_Permutation.
    apply (NoDup_fmap_1 CStr). rewrite (strings_as_cells _ Hu).
    apply unique_NoDup. eapply Forall_impl; [exact Hstr|].
    by intros c [t ->] q.
  - intros t. rewrite sort_strings_Permutation.
    rewrite <- (list_elem_of_fmap_inj CStr), (strings_as_cells _ Hu). split.
    + apply unique_sub.
    + by apply unique_elem.
Qed.

(** X11. A sample in which a string town stands beside a row without town
    makes the pipeline raise [TypeError] when the options are sorted,
    before any filter runs and whatever the selection and the year range. *)
Theorem missing_town_raises clean_df n towns year_range t :
  has_col "town" clean_df = true →
  CStr t ∈ column "town" (head n clean_df) →
  CNA ∈ column "town" (head n clean_df) →
  ∃ msg, view_of clean_df n towns year_range = Raise (TypeError msg).
Proof.
  intros Hcol Hstr Hna. unfold view_of, getitem.
  assert (has_col "town" (head n clean_df) = true) as -> by done.
  cbn [mbind result_bind].
  set (values := unique (column "town" (head n clean_df))).
  assert (CStr t ∈ values) as Hs by (by apply unique_elem).
  assert (CNA ∈ values) as Hm by (by apply unique_elem).
  assert (forallb (λ c, bool_decide (is_Some (as_str c))) values = false) as Hall.
  { apply not_true_iff_false. intros H%forallb_strings.
    by destruct (proj1 (Forall_forall _ _) H CNA Hm). }
  assert (existsb (λ c, bool_decide (is_Some (as_str c))) values = true) as Hex.
  { apply existsb_exists. exists (CStr t).
    split; [by apply list_elem_of_In | by apply bool_decide_eq_true]. }
  unfold sorted. destruct values as [|c [|d values]].
  - by apply elem_of_nil in Hs.
  - apply list_elem_of_singleton in Hs, Hm. congruence.
  - rewrite Hall, Hex. by eexists.
Qed.

(** X12. A town the selector offers always has rows: when a selected town
    is one of the options, the town filter keeps at least one row of that
    town; in particular, on a non-empty sample the default selection (the
    first five options) never gives an empty frame. *)
Theorem offered_towns_have_rows current_df town all_towns :
  getitem "town" current_df = Ok town →
  sorted (unique town) = Ok all_towns →
  (∀ selected_towns t, t ∈ all_towns → t ∈ selected_towns →
     ∃ filtered_df r,
       town_filter selected_towns current_df = Ok filtered_df
       ∧ r ∈ rows filtered_df ∧ get "town" r = t)
  ∧ (rows current_df ≠ [] →
       ∃ filtered_df,
         town_filter (default_towns all_towns) current_df = Ok filtered_df
         ∧ rows filtered_df ≠ []).
Proof.
  intros Htown Hsorted.
  assert (∀ selected_towns t, t ∈ all_towns → t ∈ selected_towns →
            ∃ filtered_df r,
              town_filter selected_towns current_df = Ok filtered_df
              ∧ r ∈ rows filtered_df ∧ get "town" r = t) as Hkept.
  { intros selected_towns t Hopt Hsel.
    assert (t ∈ town) as Hin.
    { apply unique_sub. by rewrite <- (sorted_Permutation _ _ Hsorted). }
    unfold getitem in Htown. destruct (has_col "town" current_df) eqn:Hcol; [|done].
    injection Htown as <-. apply list_elem_of_fmap in Hin as (r & -> & Hr).
    unfold town_filter, getitem. rewrite Hcol.
    destruct selected_towns as [|s sel]; [by apply elem_of_nil in Hsel|].
    cbn [mbind result_bind]. eexists _, r. split; [reflexivity|]. split; [|done].
    cbn [select_rows rows]. apply list_elem_of_In, filter_In.
    split; [by apply list_elem_of_In|].
    apply existsb_exists. exists (get "town" r).
    split; [by apply list_elem_of_In | apply cell_eqb_refl]. }
  split; [exact Hkept|]. intros Hrows.
  assert (all_towns ≠ []) as Hopts.
  { intros ->. apply sorted_Permutation, Permutation_nil_l in Hsorted.
    unfold getitem in Htown. destruct (has_col "town" current_df); [|done].
    injection Htown as <-. unfold column in Hsorted.
    destruct (rows current_df) as [|r rs]; [done|]. done. }
  destruct all_towns as [|t opts]; [done|].
  destruct (Hkept (default_towns (t :: opts)) t) as (filtered_df & r & Hf & Hr & _).
  { apply list_elem_of_here. }
  { unfold default_towns. cbn [take]. apply list_elem_of_here. }
  exists filtered_df. split; [done|]. intros Hnil. rewrite Hnil in Hr.
  by apply elem_of_nil in Hr.
Qed.
